(** * Milan telecom data: the cleaning, aggregation and resampling pipeline

    A shallow embedding of the five functions of
    [code/Data_Cleaning_and_Aggregation.ipynb],

      read_and_preprocess, aggregate_data, resample_data, clean_data,
      process_files,

    together with the part of pandas and of the Python library they call.

    Conventions of the embedding.

    - A cell of a table is an exact rational ([Qc], canonical rationals with
      Leibniz equality).  pandas stores a column as binary floating point,
      or as 64-bit integers when every field of it is a whole number; the
      rounding of a floating-point addition and the overflow of an integer
      one are not modelled, so every statement about a sum is a statement
      about the exact sum.  The statements that compare one sum with
      another (conservation of totals, independence of the order of the
      rows) are statements in exact arithmetic.
    - A file is the list of its lines and a line the list of its
      tab-separated fields.  A field is empty ([None], read as NaN) or holds a
      number; the lexing of numerals is pandas' business.  A line without any
      field is a blank line.
    - A timestamp is a number of nanoseconds since the Unix epoch, the
      resolution of a pandas [DatetimeIndex]; a fixed frequency is a positive
      number of nanoseconds.
    - A raised Python exception is the [Raise] branch of [result].
    - A folder is the list of its entries in the order in which [os.listdir]
      reports them; a path is a name in the folder. *)

From Stdlib Require Import ZArith QArith Qcanon Qround Ascii String Lia.
From stdpp Require Import base numbers list strings gmap sorting.

Local Open Scope Z_scope.
Local Open Scope Qc_scope.

(** ** Exceptions *)

Inductive exn : Type :=
  | ParserError
  | FileNotFoundError
  | KeyError (label : string)
  | ValueError.

Inductive result (A : Type) : Type :=
  | Ok (a : A)
  | Raise (e : exn).
Arguments Ok {A} a.
Arguments Raise {A} e.

#[global] Instance result_ret : MRet result := fun A a => Ok a.
#[global] Instance result_bind : MBind result := fun A B f m =>
  match m with Ok a => f a | Raise e => Raise e end.

(** ** Numbers *)

Definition num (z : Z) : Qc := Q2Qc (inject_Z z).

Definition Qcsum (l : list Qc) : Qc := foldr Qcplus 0 l.

#[global] Instance Qc_inhabited : Inhabited Qc := populate 0.

(** ** pandas *)

Module pd.

(** A [DataFrame] with a default integer index: column labels and rows. *)
Record DataFrame (A : Type) : Type := mkDataFrame {
  columns : list string;
  rows : list (list A)
}.
Arguments mkDataFrame {A} columns rows.
Arguments columns {A} d.
Arguments rows {A} d.

(** A [DataFrame] whose index is a [DatetimeIndex]: every row carries its
    timestamp. *)
Record TimeFrame : Type := mkTimeFrame {
  tf_columns : list string;
  tf_rows : list (Z * list Qc)
}.

Definition cell (r : list Qc) (i : nat) : Qc := r !!! i.

(** Positions of a label among the column labels. *)
Fixpoint positions_from (i : nat) (c : string) (cols : list string) : list nat :=
  match cols with
  | [] => []
  | x :: cols' =>
      if decide (x = c) then i :: positions_from (S i) c cols'
      else positions_from (S i) c cols'
  end.

Definition positions (c : string) (cols : list string) : list nat :=
  positions_from 0 c cols.

(** A label used as a grouping key, as the new index or as the selected
    column of a grouped frame has to denote one column: a missing label is a
    [KeyError], a repeated one makes the grouper (or the selection)
    two-dimensional. *)
Definition find_column (c : string) (cols : list string) : result nat :=
  match positions c cols with
  | [] => Raise (KeyError c)
  | [i] => Ok i
  | _ => Raise ValueError
  end.

(** *** [pd.read_csv(path, sep='\t', names=[...])] on the lines of a file *)

Definition line : Type := list (option Qc).
Definition file : Type := list line.

Definition pad (w : nat) (l : line) : line :=
  l ++ replicate (w - length l) None.

(** Blank lines are skipped.  With [names] given the tokenizer expects as
    many fields as the longer of [names] and the first line; a later line
    with more fields is an error, one with fewer is padded with NaN.  Fields
    of the first line in excess of [names] are leading index columns. *)
Definition read_csv (names : list string) (f : file) : result (DataFrame (option Qc)) :=
  match filter (fun l : line => l ≠ []) f with
  | [] => Ok (mkDataFrame names [])
  | first :: rest =>
      let width := (length first `max` length names)%nat in
      if decide (Exists (fun l : line => (width < length l)%nat) rest)
      then Raise ParserError
      else Ok (mkDataFrame names
                 ((fun l => drop (width - length names) (pad width l))
                    <$> (first :: rest)))
  end.

(** *** [df.fillna(v)] *)
Definition fillna (v : Qc) (df : DataFrame (option Qc)) : DataFrame Qc :=
  mkDataFrame (columns df) ((fun r : line => default v <$> r) <$> rows df).

(** *** [df[labels]] *)
Fixpoint locate (cols : list string) (labels : list string) : result (list nat) :=
  match labels with
  | [] => Ok []
  | c :: labels' =>
      match positions c cols with
      | [] => Raise (KeyError c)
      | ps => idx ← locate cols labels'; Ok (ps ++ idx)
      end
  end.

Definition getitem (df : DataFrame Qc) (labels : list string) : result (DataFrame Qc) :=
  idx ← locate (columns df) labels;
  Ok (mkDataFrame ((fun i => default ""%string (columns df !! i)) <$> idx)
                  ((fun r : list Qc => cell r <$> idx) <$> rows df)).

(** *** [df.groupby([k1, k2]).sum().reset_index()] *)

Definition key : Type := Qc * Qc.

Definition key_le (a b : key) : Prop :=
  a.1 < b.1 ∨ (a.1 = b.1 ∧ a.2 ≤ b.2).

#[global] Instance key_le_dec : RelDecision key_le.
Proof. intros a b. unfold key_le. apply _. Defined.

Definition row_key (i1 i2 : nat) (r : list Qc) : key := (cell r i1, cell r i2).

(** The positions of the columns that are not grouping keys. *)
Definition value_positions (i1 i2 : nat) (cols : list string) : list nat :=
  filter (fun i => i ≠ i1 ∧ i ≠ i2) (seq 0 (length cols)).

Definition group (i1 i2 : nat) (k : key) (rs : list (list Qc)) : list (list Qc) :=
  filter (fun r => row_key i1 i2 r = k) rs.

Definition group_sums (vs : list nat) (g : list (list Qc)) : list Qc :=
  (fun j => Qcsum ((fun r : list Qc => cell r j) <$> g)) <$> vs.

(** The group keys, each once, in sorted order. *)
Definition group_keys (i1 i2 : nat) (rs : list (list Qc)) : list key :=
  merge_sort key_le (remove_dups (row_key i1 i2 <$> rs)).

Definition groupby_sum (k1 k2 : string) (df : DataFrame Qc) : result (DataFrame Qc) :=
  i1 ← find_column k1 (columns df);
  i2 ← find_column k2 (columns df);
  let vs := value_positions i1 i2 (columns df) in
  Ok (mkDataFrame
        (k1 :: k2 :: ((fun i => default ""%string (columns df !! i)) <$> vs))
        ((fun k : key => k.1 :: k.2 :: group_sums vs (group i1 i2 k (rows df)))
           <$> group_keys i1 i2 (rows df))).

(** *** [pd.to_datetime(x, unit="ms")]

    Exact on whole milliseconds and on every value of nanosecond
    resolution.  A value between two nanoseconds is cut off here, where
    pandas rounds it, and the range of a pandas timestamp (an
    [OutOfBoundsDatetime] is raised beyond the years 1677 to 2262) is not
    modelled. *)
Definition to_datetime_ms (x : Qc) : Z := Qfloor (x * num 1000000).

(** *** [df[label] = pd.to_datetime(df[label], unit="ms")] followed by
    [df.set_index(label)] *)
Definition set_index_datetime_ms (label : string) (df : DataFrame Qc) : result TimeFrame :=
  i ← find_column label (columns df);
  Ok (mkTimeFrame (delete i (columns df))
        ((fun r : list Qc => (to_datetime_ms (cell r i), delete i r)) <$> rows df)).

(** *** [series.resample(freq)] with pandas' defaults [closed='left'],
    [label='left'] and [origin='start_day'] *)

Definition frequency : Type := positive.

Definition day : Z := 86400000000000%Z.

Definition start_day (t : Z) : Z := (day * (t `div` day))%Z.

(** The first bin edge at or before the first timestamp, and the first edge
    after the last one, both counted in steps of [f] from [origin]. *)
Definition first_edge (origin f first : Z) : Z :=
  (first - (first - origin) `mod` f)%Z.
Definition last_edge (origin f last : Z) : Z :=
  (last + (f - (last - origin) `mod` f))%Z.

Definition bin_range (f origin first last : Z) : list Z :=
  let lo := first_edge origin f first in
  let hi := last_edge origin f last in
  (fun i => (lo + f * i)%Z) <$> seqZ 0 ((hi - lo) `div` f).

Definition earliest (t : Z) (ts : list Z) : Z := foldr Z.min t ts.
Definition latest (t : Z) (ts : list Z) : Z := foldr Z.max t ts.

(** The labels of the bins of a series with timestamps [ts]: midnight of
    the day of the first timestamp is the origin. *)
Definition bin_labels (f : Z) (ts : list Z) : list Z :=
  match ts with
  | [] => []
  | t :: ts' =>
      bin_range f (start_day (earliest t ts')) (earliest t ts') (latest t ts')
  end.

(** The rows of a time-indexed series that fall in the bin [[b, b + f)]. *)
Definition in_bin (f b : Z) (s : list (Z * Qc)) : list (Z * Qc) :=
  filter (fun p => (b ≤ p.1 < b + f)%Z) s.

(** [.resample(f).agg('sum')] on one series: one entry per bin between the
    first and the last timestamp, empty bins included with sum [0]. *)
Definition resample_sum (f : Z) (s : list (Z * Qc)) : list (Z * Qc) :=
  (fun b => (b, Qcsum (snd <$> in_bin f b s))) <$> bin_labels f (fst <$> s).

(** *** [df.groupby(by).resample(f)[col].agg('sum')] *)

(** A row of the resulting series, its two index levels already written as
    the columns that [reset_index] makes of them. *)
Record bucket_row : Type := mkBucket {
  square_id : Qc;
  time_interval : Z;
  internet_traffic : Qc
}.

#[global] Instance bucket_row_eq_dec : EqDecision bucket_row.
Proof. solve_decision. Defined.

(** The rows of one group as a time-indexed series of the selected column. *)
Definition series_of (i_sq i_tr : nat) (s : Qc) (rs : list (Z * list Qc)) : list (Z * Qc) :=
  (fun p : Z * list Qc => (p.1, cell p.2 i_tr))
    <$> filter (fun p : Z * list Qc => cell p.2 i_sq = s) rs.

(** The group keys, each once, in sorted order. *)
Definition squares_of (i_sq : nat) (rs : list (Z * list Qc)) : list Qc :=
  merge_sort Qcle (remove_dups ((fun p : Z * list Qc => cell p.2 i_sq) <$> rs)).

(** Every group is resampled on its own. *)
Definition resample_groups (i_sq i_tr : nat) (f : frequency) (rs : list (Z * list Qc))
  : list bucket_row :=
  squares_of i_sq rs ≫= fun s =>
    (fun p : Z * Qc => mkBucket s p.1 p.2)
      <$> resample_sum (Z.pos f) (series_of i_sq i_tr s rs).

Definition groupby_resample_sum (by_ col : string) (f : frequency) (df : TimeFrame)
  : result (list bucket_row) :=
  i_sq ← find_column by_ (tf_columns df);
  i_tr ← find_column col (tf_columns df);
  Ok (resample_groups i_sq i_tr f (tf_rows df)).

End pd.

Import pd.

(** ** The Python library *)

Definition folder : Type := list (string * file).

(** [os.listdir] *)
Definition listdir (d : folder) : list string := d.*1.

(** Opening a file for reading. *)
Definition open (d : folder) (name : string) : result file :=
  match (list_to_map d : gmap string file) !! name with
  | Some f => Ok f
  | None => Raise FileNotFoundError
  end.

(** [str.endswith] *)
Definition endswith (s suffix : string) : bool :=
  bool_decide (list_ascii_of_string suffix `suffix_of` list_ascii_of_string s).

(** [os.path.splitext] on a name without directory separator: the split is
    at the last dot, unless only dots come before it. *)
Fixpoint rsplit_dot (s : list ascii) : option (list ascii * list ascii) :=
  match s with
  | [] => None
  | c :: s' =>
      match rsplit_dot s' with
      | Some (stem, ext) => Some (c :: stem, ext)
      | None => if Ascii.eqb c "." then Some ([], c :: s') else None
      end
  end.

Definition splitext (p : string) : string * string :=
  match rsplit_dot (list_ascii_of_string p) with
  | Some (stem, ext) =>
      if forallb (fun c => Ascii.eqb c ".") stem then (p, ""%string)
      else (string_of_list_ascii stem, string_of_list_ascii ext)
  | None => (p, ""%string)
  end.

(** ** The notebook *)

Definition names : list string :=
  ["square_id"; "time_interval"; "country_code"; "sms_in"; "sms_out";
   "call_in"; "call_out"; "internet_traffic"]%string.

Definition read_and_preprocess (src : folder) (file_path : string)
    (selected_columns : list string) : result (DataFrame Qc) :=
  f ← open src file_path;
  df ← read_csv names f;
  let df := fillna 0 df in
  getitem df selected_columns.

Definition aggregate_data (df : DataFrame Qc) : result TimeFrame :=
  df ← groupby_sum "square_id" "time_interval" df;
  set_index_datetime_ms "time_interval" df.

(** ['H'], the default of [resample_data]. *)
Definition hourly : frequency := 3600000000000%positive.

Definition resample_data (df : TimeFrame) (frequency : frequency) : result (list bucket_row) :=
  s ← groupby_resample_sum "square_id" "internet_traffic" frequency df;
  Ok (filter (fun x => 0 < internet_traffic x) s).

(** The destination folder maps a file name to the table written there;
    [to_csv] is the store, the rendering as text is not modelled.  The call
    of [resample_data] passes no frequency. *)
Definition clean_data (src : folder) (file_path : string) (selected_columns : list string)
    (dst : gmap string (list bucket_row)) (destination_path : string)
  : result (gmap string (list bucket_row)) :=
  df ← read_and_preprocess src (file_path ++ ".txt") selected_columns;
  df ← aggregate_data df;
  df ← resample_data df hourly;
  Ok (<[(destination_path ++ ".csv")%string := df]> dst).

(** What a run leaves behind: the destination folder and the printed lines. *)
Record world : Type := mkWorld {
  dest : gmap string (list bucket_row);
  stdout : list string
}.

(** The [for] loop over [file_list]; an exception raised by an iteration
    leaves the loop, with the world as it is at that point. *)
Fixpoint for_each_file (src : folder) (destination_folder : string)
    (selected_columns : list string) (file_list : list string) (w : world)
  : world * option exn :=
  match file_list with
  | [] => (w, None)
  | file_name :: file_list' =>
      let base_name := (splitext file_name).1 in
      match clean_data src base_name selected_columns (dest w)
              ("cleaned-" ++ base_name) with
      | Raise e => (w, Some e)
      | Ok d =>
          let line :=
            (destination_folder ++ "cleaned-" ++ base_name ++ ".csv finished "
               ++ String "010" "")%string in
          for_each_file src destination_folder selected_columns file_list'
            (mkWorld d (stdout w ++ [line]))
      end
  end.

Definition process_files (src : folder) (destination_folder : string)
    (selected_columns : list string) (w : world) : world * option exn :=
  let file_list := filter (fun file => endswith file ".txt" = true) (listdir src) in
  for_each_file src destination_folder selected_columns file_list w.

(** The settings of the execution cell. *)
Definition cleaned_dataset_folder : string := "./cleaned_dataset/".

Definition selected_columns : list string :=
  ["square_id"; "time_interval"; "internet_traffic"]%string.

(** ** Quantities the statements speak about *)

(** A cell of a time-indexed frame, by column label. *)
Definition tf_cell (df : TimeFrame) (c : string) (r : list Qc) : Qc :=
  match find_column c (tf_columns df) with
  | Ok i => cell r i
  | Raise _ => 0
  end.

(** The aggregated rows of square [s]. *)
Definition rows_of_square (df : TimeFrame) (s : Qc) : list (Z * list Qc) :=
  filter (fun p : Z * list Qc => tf_cell df "square_id" p.2 = s) (tf_rows df).

(** The traffic of square [s] summed over the aggregated rows whose
    timestamp lies in [[b, b + f)]. *)
Definition bucket_total (df : TimeFrame) (f : frequency) (s : Qc) (b : Z) : Qc :=
  Qcsum ((fun p : Z * list Qc => tf_cell df "internet_traffic" p.2)
           <$> filter (fun p : Z * list Qc => (b ≤ p.1 < b + Z.pos f)%Z)
                 (rows_of_square df s)).

(** The traffic of square [s] summed over all aggregated rows. *)
Definition aggregated_traffic (df : TimeFrame) (s : Qc) : Qc :=
  Qcsum ((fun p : Z * list Qc => tf_cell df "internet_traffic" p.2)
           <$> rows_of_square df s).

(** The traffic of square [s] summed over the rows of a resampled table. *)
Definition resampled_traffic (out : list bucket_row) (s : Qc) : Qc :=
  Qcsum (internet_traffic <$> filter (fun r => square_id r = s) out).

Definition bucket_key (r : bucket_row) : Qc * Z := (square_id r, time_interval r).

(** The origin of the bins of a series. *)
Definition origin_of (ts : list Z) : Z :=
  match ts with [] => 0%Z | t :: ts' => start_day (earliest t ts') end.

(** The columns that the aggregator sums are told by their labels: all but
    the two grouping keys. *)
Definition non_key (c : string) : Prop :=
  c ≠ "square_id"%string ∧ c ≠ "time_interval"%string.

#[global] Instance non_key_dec c : Decision (non_key c).
Proof. unfold non_key. apply _. Defined.

(** Their positions in a list of labels that starts at position [i]. *)
Fixpoint non_key_from (i : nat) (cols : list string) : list nat :=
  match cols with
  | [] => []
  | c :: cols' =>
      if decide (non_key c) then i :: non_key_from (S i) cols'
      else non_key_from (S i) cols'
  end.

Definition non_key_positions (cols : list string) : list nat := non_key_from 0 cols.

(** The output row of the group of [r]: the timestamp of its
    [time_interval], its [square_id], and for every column that is not a key
    the sum over the rows that agree with [r] on both keys. *)
Definition aggregated_row (i_sq i_t : nat) (df : DataFrame Qc) (r : list Qc) : Z * list Qc :=
  (to_datetime_ms (cell r i_t),
   cell r i_sq ::
     ((fun j => Qcsum ((fun r' : list Qc => cell r' j)
                         <$> filter (fun r' : list Qc =>
                                       cell r' i_sq = cell r i_sq ∧ cell r' i_t = cell r i_t)
                               (rows df)))
        <$> non_key_positions (columns df))).

(** The field of a line in column [k], if the line has one and it is not
    empty. *)
Definition field_of (l : line) (k : nat) : option Qc := mjoin (l !! k).

(** Loader, aggregator and resampler on the file with base name [base]. *)
Definition pipeline (src : folder) (selected : list string) (base : string)
  : result (list bucket_row) :=
  df ← read_and_preprocess src (base ++ ".txt") selected;
  df ← aggregate_data df;
  resample_data df hourly.

(** The name under which the driver stores the table of a file. *)
Definition output_name (file_name : string) : string :=
  (("cleaned-" ++ (splitext file_name).1) ++ ".csv")%string.

(** ** Sample data *)

Definition raw (sq t cc si so ci co it : option Z) : line :=
  (fun o : option Z => num <$> o) <$> [sq; t; cc; si; so; ci; co; it].

(** 2013-11-01, 10:05 and 10:40 UTC, in epoch milliseconds. *)
Definition t1005 : Z := 1383300300000%Z.
Definition t1040 : Z := 1383302400000%Z.

(** Square 7: two country codes at 10:05, one at 10:40. *)
Definition sample_file : file :=
  [ raw (Some 7) (Some t1005) (Some 39) None (Some 1) (Some 0) (Some 2) (Some 3);
    raw (Some 7) (Some t1005) (Some 33) None None None None (Some 1);
    raw (Some 7) (Some t1040) (Some 39) None None None None (Some 6) ]%Z.

(** A file whose only line has three fields. *)
Definition short_file : file := [ [Some (num 1); Some (num 1383260400000); Some (num 39)] ].

(** A file whose second line has nine fields. *)
Definition overlong_file : file :=
  [ raw (Some 1) (Some 1383260400000) (Some 39) None None None None (Some 5);
    raw (Some 1) (Some 1383260400000) (Some 39) None None None None (Some 5) ++ [Some (num 8)] ]%Z.

(** Two rows of square 1 in the same interval and a row of square 2 without
    traffic. *)
Definition duplicates_df : DataFrame Qc :=
  mkDataFrame selected_columns
    [ [num 1; num 1383260400000; num 3]; [num 1; num 1383260400000; num 2];
      [num 2; num 1383260400000; num 0] ].

Definition duplicates_aggregated : TimeFrame :=
  mkTimeFrame ["square_id"; "internet_traffic"]%string
    [ (1383260400000000000%Z, [num 1; num 5]); (1383260400000000000%Z, [num 2; num 0]) ].

(** The timestamp of [h] hours and [m] minutes after midnight of
    2013-11-01 UTC. *)
Definition stamp (h m : Z) : Z := ((1383264000 + 3600 * h + 60 * m) * 1000000000)%Z.

Definition traffic_frame (rs : list (Z * (Z * Z))) : TimeFrame :=
  mkTimeFrame ["square_id"; "internet_traffic"]%string
    ((fun p : Z * (Z * Z) => (p.1, [num p.2.1; num p.2.2])) <$> rs).

(** Square 7 at 10:05 and 10:40 with traffic 4 and 6. *)
Definition scenario_df : TimeFrame :=
  traffic_frame [(stamp 10 5, (7, 4)); (stamp 10 40, (7, 6))]%Z.

Definition sample_cleaned : list bucket_row := [mkBucket (num 7) (stamp 10 0) (num 10)].

(** The same with a later row at 12:10: the hour from 11:00 is empty. *)
Definition gap_df : TimeFrame :=
  traffic_frame [(stamp 10 5, (7, 4)); (stamp 10 40, (7, 6)); (stamp 12 10, (7, 2))]%Z.

Definition gap_cleaned : list bucket_row :=
  [mkBucket (num 7) (stamp 10 0) (num 10); mkBucket (num 7) (stamp 12 0) (num 2)].

(** A correction of -3 at 10:05 and traffic 5 at 11:05. *)
Definition negative_df : TimeFrame :=
  traffic_frame [(stamp 10 5, (1, -3)); (stamp 11 5, (1, 5))]%Z.

Definition negative_cleaned : list bucket_row := [mkBucket (num 1) (stamp 11 0) (num 5)].

(** Two squares first seen on different days, resampled every seven hours. *)
Definition seven_hours : frequency := (7 * hourly)%positive.

Definition two_days_df : TimeFrame :=
  traffic_frame [(stamp 1 0, (1, 1)); (stamp 25 0, (2, 1))]%Z.

Definition two_days_cleaned : list bucket_row :=
  [mkBucket (num 1) (stamp 0 0) (num 1); mkBucket (num 2) (stamp 24 0) (num 1)].

Definition half_hourly : frequency := 1800000000000%positive.

(** A failing file listed before a valid one, and between two valid ones. *)
Definition batch : folder :=
  [("a.txt"%string, overlong_file); ("b.txt"%string, sample_file)].

Definition long_batch : folder :=
  [("b.txt"%string, sample_file); ("a.txt"%string, overlong_file);
   ("c.txt"%string, sample_file)].

(** ** Further quantities and sample data *)

(** A name made of dots only: [os.path.splitext] finds no extension after
    such a stem. *)
Definition only_dots (s : string) : bool :=
  forallb (fun c => Ascii.eqb c ".") (list_ascii_of_string s).

(** The [.txt] entries of a folder, in listing order. *)
Definition txt_files (src : folder) : list string :=
  filter (fun file => endswith file ".txt" = true) (listdir src).

(** The order of the aggregated rows: by square, then by timestamp. *)
Definition aggregated_le (a b : Z * list Qc) : Prop :=
  cell a.2 0 < cell b.2 0 ∨ (cell a.2 0 = cell b.2 0 ∧ (a.1 ≤ b.1)%Z).

(** The order of the resampled rows: by square, then by bucket. *)
Definition bucket_lt (a b : bucket_row) : Prop :=
  square_id a < square_id b
  ∨ (square_id a = square_id b ∧ (time_interval a < time_interval b)%Z).

(** Two folders with the same listing and the same content in every entry
    whose name ends in [.txt]. *)
Definition same_txt_files (src src' : folder) : Prop :=
  Forall2 (fun a b : string * file =>
             a.1 = b.1 ∧ (endswith a.1 ".txt" = true → a.2 = b.2)) src src'.

(** The square and the traffic a line of a raw file is loaded with. *)
Definition line_square (l : line) : Qc := default 0 (field_of l 0).
Definition line_traffic (l : line) : Qc := default 0 (field_of l 7).

(** The three lines of [sample_file] and a line of square 2 without any
    counter, as the loader fills them: all eight columns. *)
Definition loaded_sample : DataFrame Qc :=
  fillna 0 (mkDataFrame names
              (sample_file
                 ++ [raw (Some 2) (Some t1005) (Some 39) None None None None None]%Z)).

Definition loaded_sample_aggregated : TimeFrame :=
  mkTimeFrame
    ["square_id"; "country_code"; "sms_in"; "sms_out"; "call_in"; "call_out";
     "internet_traffic"]%string
    [ (1383300300000000000%Z, num <$> [2; 39; 0; 0; 0; 0; 0]%Z);
      (1383300300000000000%Z, num <$> [7; 72; 0; 1; 0; 2; 4]%Z);
      (1383302400000000000%Z, num <$> [7; 39; 0; 0; 0; 0; 6]%Z) ].

(** ** Sums *)

Lemma Qcsum_cons x l : Qcsum (x :: l) = x + Qcsum l.
Proof. reflexivity. Qed.

Section sums.
Context {A : Type} (v : A → Qc).

(** Dropping the entries that are not positive from a list without
    negative entries keeps the sum. *)
Lemma Qcsum_filter_pos (l : list A) :
  (∀ x, x ∈ l → 0 ≤ v x) →
  Qcsum (v <$> filter (fun x => 0 < v x) l) = Qcsum (v <$> l).
Proof.
  induction l as [|x l IH]; intros Hl; [done|].
  rewrite filter_cons. rewrite fmap_cons, Qcsum_cons.
  assert (Hx : 0 ≤ v x) by (apply Hl; left).
  assert (IH' : Qcsum (v <$> filter (λ x0 : A, 0 < v x0) l) = Qcsum (v <$> l)).
  { apply IH. intros y Hy. apply Hl. by right. }
  destruct (decide (0 < v x)) as [Hp|Hn].
  - rewrite fmap_cons, Qcsum_cons. by rewrite IH'.
  - apply Qcnot_lt_le in Hn.
    assert (v x = 0) as -> by (by apply Qcle_antisym).
    rewrite IH'. ring.
Qed.

Context {K : Type} `{EqDecision K} (key : A → K).

Lemma Qcsum_groups_cons (a : A) (l : list A) (ks : list K) :
  NoDup ks → key a ∈ ks →
  Qcsum ((fun k => Qcsum (v <$> filter (fun x => key x = k) (a :: l))) <$> ks)
  = v a + Qcsum ((fun k => Qcsum (v <$> filter (fun x => key x = k) l)) <$> ks).
Proof.
  induction 1 as [|k ks Hk Hnd IH]; intros Hin.
  - by apply elem_of_nil in Hin.
  - rewrite !fmap_cons, !Qcsum_cons.
    destruct (decide (key a = k)) as [Heq|Hne].
    + rewrite filter_cons_True by done. rewrite fmap_cons, Qcsum_cons.
      assert (Hrest :
        (fun k0 => Qcsum (v <$> filter (fun x => key x = k0) (a :: l))) <$> ks
        = (fun k0 => Qcsum (v <$> filter (fun x => key x = k0) l)) <$> ks).
      { apply list_fmap_ext. intros i k' Hk'.
        rewrite filter_cons_False; [done|].
        intros Heq'. apply Hk. rewrite <- Heq, Heq'.
        by eapply list_elem_of_lookup_2. }
      rewrite Hrest. ring.
    + rewrite filter_cons_False by done.
      apply elem_of_cons in Hin as [Heq|Hin]; [done|].
      rewrite (IH Hin). ring.
Qed.

(** Summing group by group is summing everything, when every entry has
    its key among the (distinct) group keys. *)
Lemma Qcsum_groups (l : list A) (ks : list K) :
  NoDup ks → (∀ x, x ∈ l → key x ∈ ks) →
  Qcsum ((fun k => Qcsum (v <$> filter (fun x => key x = k) l)) <$> ks)
  = Qcsum (v <$> l).
Proof.
  intros Hnd. induction l as [|a l IH]; intros Hin.
  - clear. induction ks as [|k ks IH]; [done|].
    rewrite fmap_cons, Qcsum_cons, IH. change (Qcsum []) with 0. simpl. ring.
  - rewrite Qcsum_groups_cons; [|done|apply Hin; left].
    rewrite fmap_cons, Qcsum_cons. f_equal. apply IH.
    intros x Hx. apply Hin. by right.
Qed.
End sums.

Lemma filter_fmap {A B} (P : B → Prop) `{!∀ y, Decision (P y)} (g : A → B) (l : list A) :
  filter P (g <$> l) = g <$> filter (fun x => P (g x)) l.
Proof.
  induction l as [|x l IH]; [done|].
  rewrite fmap_cons, !filter_cons. destruct (decide (P (g x))); by rewrite IH.
Qed.

Lemma filter_all {A} (P : A → Prop) `{!∀ x, Decision (P x)} (l : list A) :
  (∀ x, x ∈ l → P x) → filter P l = l.
Proof.
  induction l as [|x l IH]; intros Hl; [done|].
  rewrite filter_cons_True by (apply Hl; left).
  f_equal. apply IH. intros y Hy. apply Hl. by right.
Qed.

Lemma filter_none {A} (P : A → Prop) `{!∀ x, Decision (P x)} (l : list A) :
  (∀ x, x ∈ l → ¬ P x) → filter P l = [].
Proof.
  induction l as [|x l IH]; intros Hl; [done|].
  rewrite filter_cons_False by (apply Hl; left).
  apply IH. intros y Hy. apply Hl. by right.
Qed.

(** The entries of [l ≫= g] with key [s], when everything in [g x] has key [x]. *)
Lemma filter_bind_key {A B} `{EqDecision A} (k : B → A) (g : A → list B) (l : list A) (s : A) :
  NoDup l → (∀ x y, y ∈ g x → k y = x) →
  filter (fun y => k y = s) (l ≫= g) = if decide (s ∈ l) then g s else [].
Proof.
  intros Hnd Hk. induction Hnd as [|x l Hx Hnd IH].
  - by rewrite decide_False by apply not_elem_of_nil.
  - rewrite bind_cons, filter_app, IH.
    destruct (decide (x = s)) as [->|Hne].
    + rewrite (decide_True (P := s ∈ s :: l)) by left.
      rewrite (decide_False (P := s ∈ l)) by done.
      rewrite app_nil_r. apply filter_all. intros y Hy. by apply Hk.
    + rewrite filter_none.
      2:{ intros y Hy Hs. apply Hne. by rewrite <- (Hk x y Hy). }
      simpl. destruct (decide (s ∈ l)) as [Hin|Hnin].
      * rewrite (decide_True (P := s ∈ x :: l)); [done|by right].
      * rewrite (decide_False (P := s ∈ x :: l)); [done|].
        intros [?|?]%elem_of_cons; congruence.
Qed.

(** ** Bins *)

Section bins.
Variables (f origin : Z).
Hypothesis f_pos : (0 < f)%Z.

Lemma first_edge_div t :
  first_edge origin f t = (origin + f * ((t - origin) `div` f))%Z.
Proof.
  unfold first_edge. pose proof (Z.div_mod (t - origin) f). lia.
Qed.

Lemma last_edge_div t :
  last_edge origin f t = (origin + f * ((t - origin) `div` f + 1))%Z.
Proof.
  unfold last_edge. pose proof (Z.div_mod (t - origin) f). lia.
Qed.

(** Left-closed windows of width [f] on the grid through [origin]. *)
Lemma window_iff k t :
  (origin + f * k ≤ t < origin + f * k + f)%Z ↔ ((t - origin) `div` f = k)%Z.
Proof.
  pose proof (Z.div_mod (t - origin) f) as Hdm.
  pose proof (Z.mod_pos_bound (t - origin) f f_pos) as Hb.
  split.
  - intros Hw. symmetry.
    apply (Z.div_unique_pos (t - origin) f k (t - origin - f * k)); lia.
  - intros <-. lia.
Qed.

Lemma elem_of_bin_range first last b :
  (first ≤ last)%Z →
  b ∈ bin_range f origin first last ↔
  ∃ k, ((first - origin) `div` f ≤ k ≤ (last - origin) `div` f)%Z
       ∧ b = (origin + f * k)%Z.
Proof.
  intros Hfl. unfold bin_range.
  rewrite first_edge_div, last_edge_div.
  set (q1 := ((first - origin) `div` f)%Z).
  set (q2 := ((last - origin) `div` f)%Z).
  assert (Hn : ((origin + f * (q2 + 1) - (origin + f * q1)) `div` f = q2 + 1 - q1)%Z).
  { replace (origin + f * (q2 + 1) - (origin + f * q1))%Z
      with ((q2 + 1 - q1) * f)%Z by lia.
    apply Z.div_mul. lia. }
  rewrite Hn, list_elem_of_fmap. split.
  - intros (i & -> & Hi%elem_of_seqZ). exists (q1 + i)%Z. lia.
  - intros (k & Hk & ->). exists (k - q1)%Z. rewrite elem_of_seqZ. lia.
Qed.

Lemma NoDup_bin_range first last : NoDup (bin_range f origin first last).
Proof.
  unfold bin_range. apply NoDup_fmap_2_strong; [|apply NoDup_seqZ].
  intros x y _ _ Hxy. nia.
Qed.

Lemma bin_range_window first last b t :
  (first ≤ last)%Z → b ∈ bin_range f origin first last →
  (b ≤ t < b + f)%Z ↔ first_edge origin f t = b.
Proof.
  intros Hfl (k & _ & ->)%elem_of_bin_range; [|done].
  rewrite window_iff, first_edge_div. split; [by intros ->|nia].
Qed.

Lemma bin_range_cover first last t :
  (first ≤ t ≤ last)%Z → first_edge origin f t ∈ bin_range f origin first last.
Proof.
  intros Ht. apply elem_of_bin_range; [lia|].
  exists ((t - origin) `div` f)%Z. split; [|apply first_edge_div].
  split; apply Z.div_le_mono; lia.
Qed.
End bins.

Lemma earliest_le t ts x : x ∈ t :: ts → (earliest t ts ≤ x)%Z.
Proof.
  unfold earliest. induction ts as [|y ts IH]; simpl.
  - intros ->%list_elem_of_singleton. lia.
  - intros [->|[->|Hx]%elem_of_cons]%elem_of_cons.
    + assert (t ∈ t :: ts) as Ht%IH by left. lia.
    + lia.
    + assert (x ∈ t :: ts) as Hx'%IH by (by right). lia.
Qed.

Lemma latest_ge t ts x : x ∈ t :: ts → (x ≤ latest t ts)%Z.
Proof.
  unfold latest. induction ts as [|y ts IH]; simpl.
  - intros ->%list_elem_of_singleton. lia.
  - intros [->|[->|Hx]%elem_of_cons]%elem_of_cons.
    + assert (t ∈ t :: ts) as Ht%IH by left. lia.
    + lia.
    + assert (x ∈ t :: ts) as Hx'%IH by (by right). lia.
Qed.

Lemma NoDup_bin_labels f ts : (0 < f)%Z → NoDup (bin_labels f ts).
Proof.
  intros Hf. destruct ts as [|t ts]; [constructor|]. by apply NoDup_bin_range.
Qed.

Lemma bin_labels_window f ts b t :
  (0 < f)%Z → b ∈ bin_labels f ts →
  (b ≤ t < b + f)%Z ↔ first_edge (origin_of ts) f t = b.
Proof.
  intros Hf. destruct ts as [|t0 ts]; [by intros ?%elem_of_nil|].
  simpl. apply bin_range_window; [done|].
  assert (Hin : t0 ∈ t0 :: ts) by left.
  pose proof (earliest_le t0 ts t0 Hin). pose proof (latest_ge t0 ts t0 Hin). lia.
Qed.

Lemma bin_labels_cover f ts t :
  (0 < f)%Z → t ∈ ts → first_edge (origin_of ts) f t ∈ bin_labels f ts.
Proof.
  intros Hf Ht. destruct ts as [|t0 ts]; [by apply elem_of_nil in Ht|].
  simpl. apply bin_range_cover; [done|].
  split; [by apply earliest_le|by apply latest_ge].
Qed.

(** Every entry of a series is counted in exactly one bin: binning keeps
    the sum. *)
Lemma resample_sum_total f (s : list (Z * Qc)) :
  (0 < f)%Z → Qcsum (snd <$> resample_sum f s) = Qcsum (snd <$> s).
Proof.
  intros Hf. unfold resample_sum. rewrite <- list_fmap_compose.
  rewrite <- (Qcsum_groups snd (fun p : Z * Qc => first_edge (origin_of (fst <$> s)) f p.1)
                s (bin_labels f (fst <$> s))).
  - f_equal. apply list_fmap_ext. intros i b Hb. simpl. unfold in_bin.
    do 2 f_equal. apply list_filter_iff. intros p.
    apply bin_labels_window; [done|]. by eapply list_elem_of_lookup_2.
  - by apply NoDup_bin_labels.
  - intros p Hp. apply bin_labels_cover; [done|]. by apply list_elem_of_fmap_2.
Qed.

(** ** The resampler *)

Lemma bind_Ok {A B} (m : result A) (k : A → result B) (b : B) :
  m ≫= k = Ok b → ∃ a, m = Ok a ∧ k a = Ok b.
Proof. destruct m as [a|e]; [by exists a|done]. Qed.

Lemma elem_of_squares_of i_sq rs s :
  s ∈ squares_of i_sq rs ↔ ∃ p, p ∈ rs ∧ cell p.2 i_sq = s.
Proof.
  unfold squares_of. rewrite merge_sort_Permutation, elem_of_remove_dups.
  rewrite list_elem_of_fmap. split.
  - intros (p & -> & Hp). by exists p.
  - intros (p & Hp & <-). by exists p.
Qed.

Lemma NoDup_squares_of i_sq rs : NoDup (squares_of i_sq rs).
Proof.
  unfold squares_of. rewrite merge_sort_Permutation. apply NoDup_remove_dups.
Qed.

Section resampler.
Variables (df : TimeFrame) (f : frequency) (i_sq i_tr : nat).
Hypothesis square_at : find_column "square_id" (tf_columns df) = Ok i_sq.
Hypothesis traffic_at : find_column "internet_traffic" (tf_columns df) = Ok i_tr.

Local Abbreviation rs := (tf_rows df).

Lemma rows_of_square_eq s :
  rows_of_square df s = filter (fun p : Z * list Qc => cell p.2 i_sq = s) rs.
Proof.
  unfold rows_of_square, tf_cell. by rewrite square_at.
Qed.

Lemma series_values s :
  snd <$> series_of i_sq i_tr s rs
  = (fun p : Z * list Qc => tf_cell df "internet_traffic" p.2) <$> rows_of_square df s.
Proof.
  rewrite rows_of_square_eq. unfold series_of, tf_cell. rewrite traffic_at.
  by rewrite <- list_fmap_compose.
Qed.

Lemma series_stamps s :
  fst <$> series_of i_sq i_tr s rs = fst <$> rows_of_square df s.
Proof.
  rewrite rows_of_square_eq. unfold series_of. by rewrite <- list_fmap_compose.
Qed.

Lemma in_bin_total s b :
  Qcsum (snd <$> in_bin (Z.pos f) b (series_of i_sq i_tr s rs))
  = bucket_total df f s b.
Proof.
  unfold bucket_total, in_bin, series_of. rewrite filter_fmap.
  rewrite <- list_fmap_compose. rewrite rows_of_square_eq.
  unfold tf_cell. by rewrite traffic_at.
Qed.

Lemma elem_of_resample_groups r :
  r ∈ resample_groups i_sq i_tr f rs ↔
  square_id r ∈ squares_of i_sq rs
  ∧ time_interval r ∈ bin_labels (Z.pos f) (fst <$> rows_of_square df (square_id r))
  ∧ internet_traffic r = bucket_total df f (square_id r) (time_interval r).
Proof.
  unfold resample_groups. rewrite list_elem_of_bind. split.
  - intros (s & Hr & Hs). apply list_elem_of_fmap in Hr as (p & -> & Hp).
    unfold resample_sum in Hp. apply list_elem_of_fmap in Hp as (b & -> & Hb).
    simpl. rewrite <- series_stamps, in_bin_total. done.
  - intros (Hs & Hb & Ht). exists (square_id r). split; [|done].
    apply list_elem_of_fmap. exists (time_interval r, internet_traffic r).
    split; [by destruct r|].
    unfold resample_sum. apply list_elem_of_fmap. exists (time_interval r).
    rewrite in_bin_total, series_stamps. by rewrite <- Ht.
Qed.

Lemma resample_groups_square_total s :
  Qcsum (internet_traffic <$> filter (fun r => square_id r = s)
                                (resample_groups i_sq i_tr f rs))
  = aggregated_traffic df s.
Proof.
  unfold resample_groups.
  rewrite (filter_bind_key square_id); [|apply NoDup_squares_of|].
  2:{ intros x y (p & -> & _)%list_elem_of_fmap. done. }
  unfold aggregated_traffic. destruct (decide (s ∈ squares_of i_sq rs)) as [Hs|Hs].
  - rewrite <- list_fmap_compose.
    change (internet_traffic ∘ (fun p : Z * Qc => mkBucket s p.1 p.2)) with (@snd Z Qc).
    rewrite resample_sum_total by done. by rewrite series_values.
  - rewrite rows_of_square_eq, filter_none; [done|].
    intros p Hp Hc. apply Hs. apply elem_of_squares_of. by exists p.
Qed.
End resampler.

Lemma groupby_resample_sum_inv df f binned :
  groupby_resample_sum "square_id" "internet_traffic" f df = Ok binned →
  ∃ i_sq i_tr,
    find_column "square_id" (tf_columns df) = Ok i_sq
    ∧ find_column "internet_traffic" (tf_columns df) = Ok i_tr
    ∧ binned = resample_groups i_sq i_tr f (tf_rows df).
Proof.
  unfold groupby_resample_sum.
  intros (i_sq & Hsq & (i_tr & Htr & [= <-])%bind_Ok)%bind_Ok.
  by exists i_sq, i_tr.
Qed.

Lemma resample_data_inv df f out :
  resample_data df f = Ok out →
  ∃ i_sq i_tr,
    find_column "square_id" (tf_columns df) = Ok i_sq
    ∧ find_column "internet_traffic" (tf_columns df) = Ok i_tr
    ∧ out = filter (fun x => 0 < internet_traffic x)
              (resample_groups i_sq i_tr f (tf_rows df)).
Proof.
  unfold resample_data.
  intros (s & (i_sq & i_tr & Hsq & Htr & ->)%groupby_resample_sum_inv & [= <-])%bind_Ok.
  by exists i_sq, i_tr.
Qed.

(** A row of the resampled table carries the total of its bucket, and that
    total is positive. *)
Lemma resample_data_row df f out r :
  resample_data df f = Ok out → r ∈ out →
  0 < internet_traffic r
  ∧ internet_traffic r = bucket_total df f (square_id r) (time_interval r).
Proof.
  intros (i_sq & i_tr & Hsq & Htr & ->)%resample_data_inv.
  intros [Hpos Hr]%list_elem_of_filter. split; [done|].
  by apply (elem_of_resample_groups df f i_sq i_tr Hsq Htr) in Hr as (_ & _ & ?).
Qed.

(** The sample tables, resampled hourly. *)

Example scenario_resampled :
  resample_data scenario_df hourly = Ok [mkBucket (num 7) (stamp 10 0) (num 10)].
Proof. vm_compute. reflexivity. Qed.

Example gap_resampled :
  groupby_resample_sum "square_id" "internet_traffic" hourly gap_df
  = Ok [mkBucket (num 7) (stamp 10 0) (num 10); mkBucket (num 7) (stamp 11 0) (num 0);
        mkBucket (num 7) (stamp 12 0) (num 2)]
  ∧ resample_data gap_df hourly
    = Ok [mkBucket (num 7) (stamp 10 0) (num 10); mkBucket (num 7) (stamp 12 0) (num 2)].
Proof. vm_compute. auto. Qed.

Example negative_resampled :
  resample_data negative_df hourly = Ok [mkBucket (num 1) (stamp 11 0) (num 5)].
Proof. vm_compute. reflexivity. Qed.

(** ** Properties of the resampled table *)

(** C2: a bucket whose summed traffic is exactly 0 is discarded, and no row
    of the resampled table has traffic 0. *)
Theorem zero_buckets_dropped (df : TimeFrame) (f : frequency) (out : list bucket_row) :
  resample_data df f = Ok out →
  (∀ r, r ∈ out → internet_traffic r ≠ 0)
  ∧ (∀ s b, bucket_total df f s b = 0 →
       ∀ r, r ∈ out → ¬ (square_id r = s ∧ time_interval r = b)).
Proof.
  intros Hout. split.
  - intros r Hr Hz. destruct (resample_data_row df f out r Hout Hr) as [Hpos _].
    rewrite Hz in Hpos. by apply Qclt_not_eq in Hpos.
  - intros s b Hz r Hr [<- <-].
    destruct (resample_data_row df f out r Hout Hr) as [Hpos Ht].
    rewrite Ht, Hz in Hpos. by apply Qclt_not_eq in Hpos.
Qed.

Lemma zero_buckets_dropped_witness :
  (∀ r, r ∈ gap_cleaned → internet_traffic r ≠ 0)
  ∧ (∀ s b, bucket_total gap_df hourly s b = 0 →
       ∀ r, r ∈ gap_cleaned → ¬ (square_id r = s ∧ time_interval r = b)).
Proof.
  apply (zero_buckets_dropped gap_df hourly). vm_compute. reflexivity.
Defined.

(** C10: only buckets whose summed traffic is strictly positive are kept; a
    bucket whose sum is negative has no row either. *)
Theorem only_positive_buckets_kept (df : TimeFrame) (f : frequency) (out : list bucket_row) :
  resample_data df f = Ok out →
  (∀ r, r ∈ out → 0 < internet_traffic r)
  ∧ (∀ s b, bucket_total df f s b < 0 →
       ∀ r, r ∈ out → ¬ (square_id r = s ∧ time_interval r = b)).
Proof.
  intros Hout. split.
  - intros r Hr. by destruct (resample_data_row df f out r Hout Hr).
  - intros s b Hneg r Hr [<- <-].
    destruct (resample_data_row df f out r Hout Hr) as [Hpos Ht].
    rewrite Ht in Hpos. apply (Qclt_not_le _ _ Hpos). by apply Qclt_le_weak.
Qed.

Lemma only_positive_buckets_kept_witness :
  (∀ r, r ∈ negative_cleaned → 0 < internet_traffic r)
  ∧ (∀ s b, bucket_total negative_df hourly s b < 0 →
       ∀ r, r ∈ negative_cleaned → ¬ (square_id r = s ∧ time_interval r = b)).
Proof.
  apply (only_positive_buckets_kept negative_df hourly). vm_compute. reflexivity.
Defined.

(** C4: the (square_id, bucket) pairs of a resampled table are pairwise
    distinct. *)
Theorem resampled_keys_unique (df : TimeFrame) (f : frequency) (out : list bucket_row) :
  resample_data df f = Ok out → NoDup (bucket_key <$> out).
Proof.
  intros (i_sq & i_tr & Hsq & Htr & ->)%resample_data_inv.
  eapply sublist_NoDup; [|apply fmap_sublist, sublist_filter].
  unfold resample_groups. apply NoDup_fmap_2_strong.
  - intros x y Hx Hy Hxy.
    apply (elem_of_resample_groups df f i_sq i_tr Hsq Htr) in Hx as (_ & _ & Hx).
    apply (elem_of_resample_groups df f i_sq i_tr Hsq Htr) in Hy as (_ & _ & Hy).
    destruct x as [xs xb xv], y as [ys yb yv]. simpl in *.
    injection Hxy as -> ->. by rewrite Hx, Hy.
  - apply NoDup_bind.
    + intros s1 s2 y _ _ (p1 & -> & _)%list_elem_of_fmap (p2 & Heq & _)%list_elem_of_fmap.
      by injection Heq.
    + intros s _. apply NoDup_fmap_2_strong.
      * intros p q _ _ Hpq. destruct p, q. by injection Hpq as -> ->.
      * unfold resample_sum. apply NoDup_fmap_2_strong.
        -- intros b1 b2 _ _ Hb. by injection Hb.
        -- by apply NoDup_bin_labels.
    + apply NoDup_squares_of.
Qed.

Lemma resampled_keys_unique_witness :
  NoDup (bucket_key <$> [mkBucket (num 7) (stamp 10 0) (num 10);
                         mkBucket (num 7) (stamp 12 0) (num 2)]).
Proof.
  apply (resampled_keys_unique gap_df hourly). vm_compute. reflexivity.
Defined.




(** C5, as stated, fails: at a frequency of seven hours the buckets of each
    square start at midnight of the day of its first row, and the two labels
    of [two_days_df] lie on no common grid of seven-hour steps. *)
Lemma seven_hour_bins_follow_first_day :
  resample_data two_days_df seven_hours = Ok two_days_cleaned
  ∧ ¬ ∃ epoch : Z, ∀ r, r ∈ two_days_cleaned →
        ((time_interval r - epoch) `mod` Z.pos seven_hours = 0)%Z.
Proof.
  split; [vm_compute; reflexivity|].
  intros [e He].
  assert (H1 := He (mkBucket (num 1) (stamp 0 0) (num 1)) ltac:(left)).
  assert (H2 := He (mkBucket (num 2) (stamp 24 0) (num 1)) ltac:(right; left)).
  simpl in H1, H2.
  apply Z.mod_divide in H1; [|done]. apply Z.mod_divide in H2; [|done].
  assert (Hd : (Z.pos seven_hours | stamp 24 0 - stamp 0 0)%Z).
  { replace (stamp 24 0 - stamp 0 0)%Z
      with ((stamp 24 0 - e) - (stamp 0 0 - e))%Z by lia.
    by apply Z.divide_sub_r. }
  apply Z.mod_divide in Hd; [|done]. vm_compute in Hd. discriminate Hd.
Qed.

Lemma bin_labels_on_grid f ts b :
  (0 < f)%Z → (day `mod` f = 0)%Z → b ∈ bin_labels f ts → (b `mod` f = 0)%Z.
Proof.
  intros Hf Hday Hb. destruct ts as [|t ts]; [by apply elem_of_nil in Hb|].
  simpl in Hb. apply elem_of_bin_range in Hb as (k & _ & ->); [|done|].
  2:{ assert (Hin : t ∈ t :: ts) by left.
      pose proof (earliest_le t ts t Hin). pose proof (latest_ge t ts t Hin). lia. }
  unfold start_day. apply Z_div_exact_full_2 in Hday; [|lia].
  rewrite Hday.
  replace (f * (day `div` f) * (earliest t ts `div` (f * (day `div` f))) + f * k)%Z
    with ((day `div` f * (earliest t ts `div` (f * (day `div` f))) + k) * f)%Z by lia.
  apply Z.mod_mul. lia.
Qed.

Lemma first_edge_on_grid f ts t :
  (0 < f)%Z → (day `mod` f = 0)%Z →
  first_edge (origin_of ts) f t = (f * (t `div` f))%Z.
Proof.
  intros Hf Hday.
  assert (∃ m, origin_of ts = (m * f)%Z) as [m ->].
  { apply Z_div_exact_full_2 in Hday; [|lia].
    destruct ts as [|t0 ts]; [by exists 0%Z|]. simpl. unfold start_day.
    exists (day `div` f * (earliest t0 ts `div` day))%Z. lia. }
  rewrite first_edge_div by done.
  replace (t - m * f)%Z with (t + - m * f)%Z by lia.
  rewrite Z.div_add by lia. lia.
Qed.

(** C5, amended: at the hourly default, and at every frequency that divides
    one day, the label of every row of the resampled table is a multiple of
    the frequency counted from the Unix epoch, its traffic is the sum over
    the aggregated rows of its square with a timestamp in the left-closed
    window [[label, label + frequency)], and every aggregated row is counted
    in the row labelled with its timestamp rounded down to the grid, which
    is present when that sum is positive. *)
Theorem resample_bins_on_epoch_grid (df : TimeFrame) (f : frequency) (out : list bucket_row) :
  (day `mod` Z.pos f = 0)%Z →
  resample_data df f = Ok out →
  (∀ r, r ∈ out →
     (time_interval r `mod` Z.pos f = 0)%Z
     ∧ internet_traffic r = bucket_total df f (square_id r) (time_interval r))
  ∧ (∀ p, p ∈ tf_rows df →
       let s := tf_cell df "square_id" p.2 in
       let b := (Z.pos f * (p.1 `div` Z.pos f))%Z in
       (b ≤ p.1 < b + Z.pos f)%Z
       ∧ (0 < bucket_total df f s b → mkBucket s b (bucket_total df f s b) ∈ out)).
Proof.
  intros Hday Hout. split.
  - intros r Hr. split; [|by destruct (resample_data_row df f out r Hout Hr)].
    apply resample_data_inv in Hout as (i_sq & i_tr & Hsq & Htr & ->).
    apply list_elem_of_filter in Hr as [_ Hr].
    apply (elem_of_resample_groups df f i_sq i_tr Hsq Htr) in Hr as (_ & Hb & _).
    by eapply bin_labels_on_grid.
  - intros p Hp s b. split.
    { subst b. pose proof (Z.div_mod p.1 (Z.pos f)).
      pose proof (Z.mod_pos_bound p.1 (Z.pos f)). lia. }
    intros Hpos.
    apply resample_data_inv in Hout as (i_sq & i_tr & Hsq & Htr & ->).
    apply list_elem_of_filter. split; [done|].
    apply (elem_of_resample_groups df f i_sq i_tr Hsq Htr). simpl.
    assert (Hs : s = cell p.2 i_sq) by (subst s; unfold tf_cell; by rewrite Hsq).
    split; [|split; [|done]].
    + apply elem_of_squares_of. by exists p.
    + subst b.
      rewrite <- (first_edge_on_grid (Z.pos f) (fst <$> rows_of_square df s)) by done.
      apply bin_labels_cover; [done|]. apply list_elem_of_fmap_2.
      rewrite (rows_of_square_eq df i_sq Hsq). by apply list_elem_of_filter.
Qed.

Lemma resample_bins_on_epoch_grid_witness :
  resample_data scenario_df hourly = Ok sample_cleaned
  ∧ (∀ r, r ∈ sample_cleaned →
       (time_interval r `mod` Z.pos hourly = 0)%Z
       ∧ internet_traffic r = bucket_total scenario_df hourly (square_id r) (time_interval r))
  ∧ (∀ p, p ∈ tf_rows scenario_df →
       let s := tf_cell scenario_df "square_id" p.2 in
       let b := (Z.pos hourly * (p.1 `div` Z.pos hourly))%Z in
       (b ≤ p.1 < b + Z.pos hourly)%Z
       ∧ (0 < bucket_total scenario_df hourly s b
          → mkBucket s b (bucket_total scenario_df hourly s b) ∈ sample_cleaned)).
Proof.
  split; [vm_compute; reflexivity|].
  apply (resample_bins_on_epoch_grid scenario_df hourly).
  - vm_compute. reflexivity.
  - vm_compute. reflexivity.
Defined.

(** ** The aggregator *)

Lemma elem_of_positions_from n c cols i :
  i ∈ positions_from n c cols ↔ (n ≤ i)%nat ∧ cols !! (i - n)%nat = Some c.
Proof.
  revert n. induction cols as [|x cols IH]; intros n; simpl.
  - split; [by intros ?%elem_of_nil|by intros [_ ?]].
  - destruct (decide (x = c)) as [->|Hne].
    + rewrite elem_of_cons, IH. split.
      * intros [->|[Hle Hi]].
        -- split; [lia|]. by replace (n - n)%nat with 0%nat by lia.
        -- split; [lia|]. by replace (i - n)%nat with (S (i - S n)) by lia.
      * intros [Hle Hi]. destruct (decide (i = n)) as [->|Hin]; [by left|right].
        split; [lia|]. by replace (i - n)%nat with (S (i - S n)) in Hi by lia.
    + rewrite IH. split.
      * intros [Hle Hi]. split; [lia|].
        by replace (i - n)%nat with (S (i - S n)) by lia.
      * intros [Hle Hi]. destruct (decide (i = n)) as [->|Hin].
        -- replace (n - n)%nat with 0%nat in Hi by lia. simpl in Hi. congruence.
        -- split; [lia|]. by replace (i - n)%nat with (S (i - S n)) in Hi by lia.
Qed.

Lemma elem_of_positions c cols i : i ∈ positions c cols ↔ cols !! i = Some c.
Proof.
  unfold positions. rewrite elem_of_positions_from.
  replace (i - 0)%nat with i by lia. split; [by intros [_ ?]|]. split; [lia|done].
Qed.

Lemma positions_from_absent n c cols : c ∉ cols → positions_from n c cols = [].
Proof.
  revert n. induction cols as [|x cols IH]; intros n Hc; [done|]. simpl.
  apply not_elem_of_cons in Hc as [Hne Hc].
  rewrite decide_False by done. by apply IH.
Qed.

Lemma find_column_unique c cols i j :
  find_column c cols = Ok i → cols !! j = Some c → j = i.
Proof.
  unfold find_column. intros Hf Hj%elem_of_positions.
  destruct (positions c cols) as [|i' [|i'' ps]]; try done.
  injection Hf as <-. by apply list_elem_of_singleton in Hj.
Qed.

Lemma find_column_lookup c cols i : find_column c cols = Ok i → cols !! i = Some c.
Proof.
  unfold find_column. intros Hi. apply elem_of_positions.
  destruct (positions c cols) as [|a [|b ps]]; try done. injection Hi as ->. left.
Qed.

Lemma find_column_iff c cols i :
  find_column c cols = Ok i → ∀ j, cols !! j = Some c ↔ j = i.
Proof.
  intros Hi j. split; [by apply find_column_unique|].
  intros ->. by apply find_column_lookup.
Qed.

(** The positions that [groupby] leaves to be summed are those of the
    columns whose label is not a key. *)
Lemma non_key_from_filter (P : nat → Prop) `{!∀ i, Decision (P i)} cols n :
  (∀ i c, cols !! i = Some c → P (n + i)%nat ↔ non_key c) →
  filter P (seq n (length cols)) = non_key_from n cols.
Proof.
  revert n. induction cols as [|c cols IH]; intros n HP; [done|].
  cbn [length seq non_key_from]. rewrite filter_cons.
  assert (Hc : P n ↔ non_key c).
  { rewrite <- (HP 0%nat c eq_refl). by replace (n + 0)%nat with n by lia. }
  assert (Htl : filter P (seq (S n) (length cols)) = non_key_from (S n) cols).
  { apply IH. intros i c' Hi. rewrite <- (HP (S i) c' Hi).
    by replace (n + S i)%nat with (S n + i)%nat by lia. }
  destruct (decide (P n)) as [Hn|Hn], (decide (non_key c)) as [Hk|Hk];
    [by rewrite Htl|tauto|tauto|done].
Qed.

Lemma value_positions_non_key cols i_sq i_t :
  find_column "square_id" cols = Ok i_sq →
  find_column "time_interval" cols = Ok i_t →
  value_positions i_sq i_t cols = non_key_positions cols.
Proof.
  intros Hsq Ht. unfold value_positions, non_key_positions.
  apply non_key_from_filter. intros i c Hi. simpl. unfold non_key.
  pose proof (find_column_iff _ _ _ Hsq i) as Hsq'.
  pose proof (find_column_iff _ _ _ Ht i) as Ht'.
  rewrite Hi in Hsq', Ht'.
  split.
  - intros [H1 H2]. split; intros ->; [by apply H1, Hsq'|by apply H2, Ht'].
  - intros [H1 H2]. split; intros Heq.
    + apply H1. apply Hsq' in Heq. by injection Heq.
    + apply H2. apply Ht' in Heq. by injection Heq.
Qed.

Lemma non_key_from_labels (pre cols : list string) :
  (fun i => default ""%string ((pre ++ cols) !! i)) <$> non_key_from (length pre) cols
  = filter non_key cols.
Proof.
  revert pre. induction cols as [|c cols IH]; intros pre; [done|].
  cbn [non_key_from]. rewrite filter_cons.
  assert (Htl : (fun i => default ""%string ((pre ++ c :: cols) !! i))
                  <$> non_key_from (S (length pre)) cols
                = filter non_key cols).
  { rewrite <- (IH (pre ++ [c])). rewrite length_app. simpl.
    replace (length pre + 1)%nat with (S (length pre)) by lia.
    by rewrite <- app_assoc. }
  destruct (decide (non_key c)); [|done].
  rewrite fmap_cons, Htl. f_equal.
  by rewrite list_lookup_middle.
Qed.

Lemma non_key_labels (cols : list string) :
  (fun i => default ""%string (cols !! i)) <$> non_key_positions cols
  = filter non_key cols.
Proof. apply (non_key_from_labels [] cols). Qed.

Lemma row_key_in_group_keys i1 i2 rs r :
  r ∈ rs → row_key i1 i2 r ∈ group_keys i1 i2 rs.
Proof.
  intros Hr. unfold group_keys.
  rewrite merge_sort_Permutation, elem_of_remove_dups. by apply list_elem_of_fmap_2.
Qed.

Lemma elem_of_group_keys i1 i2 rs k :
  k ∈ group_keys i1 i2 rs → ∃ r, r ∈ rs ∧ k = row_key i1 i2 r.
Proof.
  unfold group_keys. rewrite merge_sort_Permutation, elem_of_remove_dups.
  intros (r & -> & Hr)%list_elem_of_fmap. by exists r.
Qed.

Lemma aggregated_row_eq i_sq i_t df r :
  aggregated_row i_sq i_t df r
  = (to_datetime_ms (row_key i_sq i_t r).2,
     (row_key i_sq i_t r).1 ::
       group_sums (non_key_positions (columns df))
         (group i_sq i_t (row_key i_sq i_t r) (rows df))).
Proof.
  unfold aggregated_row, group_sums, group, row_key. simpl. do 2 f_equal.
  apply list_fmap_ext. intros _ j _. do 2 f_equal.
  apply list_filter_iff. intros r'. split; [by intros [-> ->]|by intros [= -> ->]].
Qed.

Lemma set_index_after_groupby (cols vnames : list string) i_t :
  find_column "time_interval" cols = Ok i_t →
  (∀ c, c ∈ vnames → ∃ i, i ≠ i_t ∧ c = default ""%string (cols !! i)) →
  find_column "time_interval" ("square_id" :: "time_interval" :: vnames)%string = Ok 1%nat.
Proof.
  intros Hf Hv. unfold find_column at 1, positions. simpl.
  rewrite positions_from_absent; [done|].
  intros (i & Hi & Hc)%Hv. destruct (cols !! i) as [c|] eqn:Hci; [|done].
  simpl in Hc. subst c. apply Hi. by eapply find_column_unique.
Qed.

Lemma aggregate_data_inv df out :
  aggregate_data df = Ok out →
  ∃ i_sq i_t,
    find_column "square_id" (columns df) = Ok i_sq
    ∧ find_column "time_interval" (columns df) = Ok i_t
    ∧ out = mkTimeFrame
              ("square_id"%string ::
                 ((fun i => default ""%string (columns df !! i))
                    <$> value_positions i_sq i_t (columns df)))
              ((fun k : key =>
                  (to_datetime_ms k.2,
                   k.1 :: group_sums (value_positions i_sq i_t (columns df))
                            (group i_sq i_t k (rows df))))
                 <$> group_keys i_sq i_t (rows df)).
Proof.
  unfold aggregate_data. intros (g & Hg & Hset)%bind_Ok.
  unfold groupby_sum in Hg.
  apply bind_Ok in Hg as (i_sq & Hsq & (i_t & Ht & [= <-])%bind_Ok).
  exists i_sq, i_t. split; [done|]. split; [done|].
  unfold set_index_datetime_ms in Hset. simpl columns in Hset. simpl rows in Hset.
  rewrite (set_index_after_groupby (columns df) _ i_t Ht) in Hset.
  - simpl in Hset. injection Hset as <-. f_equal.
    rewrite <- list_fmap_compose. done.
  - intros c (i & -> & Hi)%list_elem_of_fmap.
    apply list_elem_of_filter in Hi as [[_ Hne] _]. by exists i.
Qed.

(** C6: the aggregator forms one group for every pair of [square_id] and
    [time_interval] values that occurs, rows belonging together exactly when
    both values are equal.  Its table has the column [square_id] followed by
    every column of the input whose label is not a key, in the order of the
    input; the output row of a group holds, for each of these columns, the
    sum of the column over the group; and every input row has its group in
    the output, whatever the sums are: there are as many output rows as
    distinct key pairs. *)
Theorem aggregate_data_keeps_every_group (df : DataFrame Qc) (out : TimeFrame) :
  aggregate_data df = Ok out →
  ∃ i_sq i_t,
    (∀ j, columns df !! j = Some "square_id"%string ↔ j = i_sq)
    ∧ (∀ j, columns df !! j = Some "time_interval"%string ↔ j = i_t)
    ∧ tf_columns out = "square_id"%string :: filter non_key (columns df)
    ∧ (∀ r, r ∈ rows df → aggregated_row i_sq i_t df r ∈ tf_rows out)
    ∧ (∀ o, o ∈ tf_rows out → ∃ r, r ∈ rows df ∧ o = aggregated_row i_sq i_t df r)
    ∧ length (tf_rows out)
      = length (remove_dups ((fun r : list Qc => (cell r i_sq, cell r i_t)) <$> rows df)).
Proof.
  intros (i_sq & i_t & Hsq & Ht & Hout)%aggregate_data_inv.
  rewrite (value_positions_non_key _ _ _ Hsq Ht) in Hout. subst out.
  exists i_sq, i_t.
  split; [by apply find_column_iff|]. split; [by apply find_column_iff|].
  cbn [tf_columns tf_rows]. split; [|split; [|split]].
  - by rewrite non_key_labels.
  - intros r Hr. rewrite aggregated_row_eq. apply list_elem_of_fmap.
    exists (row_key i_sq i_t r). split; [done|]. by apply row_key_in_group_keys.
  - intros o (k & -> & (r & Hr & ->)%elem_of_group_keys)%list_elem_of_fmap.
    exists r. split; [done|]. by rewrite aggregated_row_eq.
  - rewrite length_fmap. unfold group_keys. by rewrite merge_sort_Permutation.
Qed.

Example duplicates_are_summed : aggregate_data duplicates_df = Ok duplicates_aggregated.
Proof. vm_compute. reflexivity. Qed.

Example loaded_sample_is_aggregated :
  aggregate_data loaded_sample = Ok loaded_sample_aggregated.
Proof. vm_compute. reflexivity. Qed.

Lemma aggregate_data_keeps_every_group_witness :
  ∃ i_sq i_t,
    (∀ j, columns loaded_sample !! j = Some "square_id"%string ↔ j = i_sq)
    ∧ (∀ j, columns loaded_sample !! j = Some "time_interval"%string ↔ j = i_t)
    ∧ tf_columns loaded_sample_aggregated
      = "square_id"%string :: filter non_key (columns loaded_sample)
    ∧ (∀ r, r ∈ rows loaded_sample →
         aggregated_row i_sq i_t loaded_sample r ∈ tf_rows loaded_sample_aggregated)
    ∧ (∀ o, o ∈ tf_rows loaded_sample_aggregated →
         ∃ r, r ∈ rows loaded_sample ∧ o = aggregated_row i_sq i_t loaded_sample r)
    ∧ length (tf_rows loaded_sample_aggregated)
      = length (remove_dups ((fun r : list Qc => (cell r i_sq, cell r i_t))
                               <$> rows loaded_sample)).
Proof.
  apply (aggregate_data_keeps_every_group loaded_sample loaded_sample_aggregated).
  vm_compute. reflexivity.
Defined.

(** ** The loader *)

Lemma positions_from_NoDup n c cols k :
  NoDup cols → cols !! k = Some c → positions_from n c cols = [(n + k)%nat].
Proof.
  intros Hnd. revert n k. induction Hnd as [|x cols Hx Hnd IH]; intros n k Hk; [done|].
  destruct k as [|k]; simpl in *.
  - injection Hk as ->. rewrite decide_True by done.
    rewrite positions_from_absent by done. f_equal. lia.
  - rewrite decide_False.
    + rewrite (IH (S n) k Hk). f_equal. lia.
    + intros ->. apply Hx. by eapply list_elem_of_lookup_2.
Qed.

Lemma locate_lookup cols labels idx j c k :
  NoDup cols → locate cols labels = Ok idx →
  labels !! j = Some c → cols !! k = Some c → idx !! j = Some k.
Proof.
  intros Hnd. revert idx j. induction labels as [|c' labels IH]; intros idx j Hloc Hj Hk; [done|].
  simpl in Hloc. destruct (positions c' cols) as [|p ps] eqn:Hp; [done|].
  apply bind_Ok in Hloc as (idx' & Hloc & [= <-]).
  destruct j as [|j]; simpl in Hj.
  - injection Hj as ->. unfold positions in Hp.
    rewrite (positions_from_NoDup 0 c cols k Hnd Hk) in Hp. by injection Hp as <- <-.
  - assert (∃ k', cols !! k' = Some c') as [k' Hk'].
    { exists p. apply elem_of_positions. rewrite Hp. left. }
    unfold positions in Hp.
    rewrite (positions_from_NoDup 0 c' cols k' Hnd Hk') in Hp. injection Hp as <- <-.
    simpl. by apply IH.
Qed.

Lemma locate_present cols labels :
  (∀ c, c ∈ labels → c ∈ cols) → ∃ idx, locate cols labels = Ok idx.
Proof.
  induction labels as [|c labels IH]; intros Hin; [by exists []|].
  destruct IH as [idx Hidx]; [intros c' Hc'; apply Hin; by right|].
  assert (c ∈ cols) as (i & Hi)%list_elem_of_lookup_1 by (apply Hin; left).
  apply elem_of_positions in Hi. simpl.
  destruct (positions c cols) as [|p ps]; [by apply elem_of_nil in Hi|].
  rewrite Hidx. by eexists.
Qed.

Lemma NoDup_names : NoDup names.
Proof. apply (bool_decide_unpack _). vm_compute. exact I. Qed.

Lemma read_csv_columns cols f raw : read_csv cols f = Ok raw → columns raw = cols.
Proof.
  unfold read_csv. destruct (filter _ f) as [|first rest]; [by intros [= <-]|].
  case_decide; [done|]. by intros [= <-].
Qed.

Lemma read_csv_row_length cols f raw r :
  read_csv cols f = Ok raw → r ∈ rows raw → length r = length cols.
Proof.
  unfold read_csv. destruct (filter _ f) as [|first rest].
  { intros [= <-]. by intros ?%elem_of_nil. }
  case_decide as Hlong; [done|]. intros [= <-].
  set (width := (length first `max` length cols)%nat).
  assert (Hfit : ∀ l : line, (length l ≤ width)%nat →
                   length (drop (width - length cols) (pad width l)) = length cols).
  { intros l Hl. rewrite length_drop. unfold pad.
    rewrite length_app, length_replicate. lia. }
  intros [->|(l & -> & Hl)%list_elem_of_fmap]%elem_of_cons; apply Hfit; [lia|].
  apply not_Exists_Forall in Hlong; [|intros x; apply _].
  rewrite Forall_forall in Hlong. specialize (Hlong l Hl). simpl in Hlong. lia.
Qed.

(** The cells of a row selected from the filled frame. *)
Lemma getitem_filled_cell (raw : DataFrame (option Qc)) selected out i r :
  columns raw = names → getitem (fillna 0 raw) selected = Ok out →
  rows raw !! i = Some r →
  ∃ o, rows out !! i = Some o
    ∧ ∀ j c k field,
        selected !! j = Some c → names !! k = Some c → r !! k = Some field →
        o !! j = Some (default 0 field).
Proof.
  intros Hcols Hout Hr. unfold getitem in Hout.
  apply bind_Ok in Hout as (idx & Hidx & [= <-]). simpl in *. rewrite Hcols in Hidx.
  unfold line in *. rewrite !list_lookup_fmap, Hr. simpl. eexists. split; [done|].
  intros j c k field Hj Hk Hfield.
  rewrite list_lookup_fmap, (locate_lookup names selected idx j c k NoDup_names Hidx Hj Hk).
  simpl. f_equal. unfold cell. apply list_lookup_total_correct.
  by rewrite list_lookup_fmap, Hfield.
Qed.

Lemma locate_length cols labels idx :
  NoDup cols → locate cols labels = Ok idx → length idx = length labels.
Proof.
  intros Hnd. revert idx. induction labels as [|c labels IH]; intros idx Hidx.
  - by injection Hidx as <-.
  - simpl in Hidx. destruct (positions c cols) as [|p ps] eqn:Hp; [done|].
    assert (∃ k, cols !! k = Some c) as [k Hk].
    { exists p. apply elem_of_positions. rewrite Hp. left. }
    unfold positions in Hp. rewrite (positions_from_NoDup 0 c cols k Hnd Hk) in Hp.
    injection Hp as <- <-.
    apply bind_Ok in Hidx as (idx' & Hidx' & [= <-]). simpl. f_equal. by apply IH.
Qed.

Lemma getitem_columns (df : DataFrame Qc) selected out :
  columns df = names → getitem df selected = Ok out → columns out = selected.
Proof.
  intros Hcols Hout. unfold getitem in Hout. rewrite Hcols in Hout.
  apply bind_Ok in Hout as (idx & Hidx & [= <-]). simpl.
  apply list_eq. intros j. rewrite list_lookup_fmap.
  destruct (selected !! j) as [c|] eqn:Hj.
  - assert (∃ k, names !! k = Some c) as [k Hk].
    { clear -Hidx Hj. revert idx j Hidx Hj.
      induction selected as [|c' sel IH]; intros idx j Hidx Hj; [done|].
      simpl in Hidx. destruct (positions c' names) as [|p ps] eqn:Hp; [done|].
      apply bind_Ok in Hidx as (idx' & Hidx' & _).
      destruct j as [|j]; simpl in Hj; [|by eapply IH].
      injection Hj as ->. exists p. apply elem_of_positions. rewrite Hp. left. }
    rewrite (locate_lookup names selected idx j c k NoDup_names Hidx Hj Hk).
    simpl. by rewrite Hk.
  - apply lookup_ge_None in Hj. rewrite lookup_ge_None_2; [done|].
    rewrite (locate_length names selected idx NoDup_names Hidx). lia.
Qed.

(** A file without overlong lines is read line by line, short lines padded. *)
Lemma read_csv_short (f : file) :
  (∀ l, l ∈ f → (length l ≤ 8)%nat) →
  read_csv names f = Ok (mkDataFrame names (pad 8 <$> filter (fun l : line => l ≠ []) f)).
Proof.
  intros Hshort. unfold read_csv.
  assert (Hbody : ∀ l, l ∈ filter (fun l : line => l ≠ []) f → (length l ≤ 8)%nat).
  { intros l [_ Hl]%list_elem_of_filter. by apply Hshort. }
  destruct (filter (fun l : line => l ≠ []) f) as [|first rest]; [done|].
  assert (Hw : (length first `max` length names = 8)%nat).
  { assert (length first ≤ 8)%nat by (apply Hbody; left). simpl. lia. }
  rewrite Hw. rewrite decide_False.
  - do 2 f_equal.
  - intros (l & Hl & Hlong)%Exists_exists. simpl in Hlong.
    assert (length l ≤ 8)%nat by (apply Hbody; by right). lia.
Qed.

Lemma pad_lookup (l : line) (k : nat) :
  (k < 8)%nat → pad 8 l !! k = Some (field_of l k).
Proof.
  intros Hk. unfold pad, field_of, line in *.
  destruct (decide (k < length l)%nat) as [Hlt|Hge].
  - rewrite lookup_app_l by done.
    destruct (lookup_lt_is_Some_2 l k Hlt) as [x Hx]. by rewrite Hx.
  - rewrite lookup_app_r by lia. rewrite (lookup_ge_None_2 l k) by lia. simpl.
    apply lookup_replicate_2. lia.
Qed.

(** C3: the column selection is taken from the frame in which the missing
    fields are already filled.  Every parsed row has the eight fields of the
    schema; in the filled frame each of them, identifier and timestamp
    included, is the value of the field, and 0 when the field is missing; and
    so is every selected cell of the loaded row. *)
Theorem missing_fields_load_as_zero (src : folder) (file_path : string)
    (selected : list string) (f : file) (raw : DataFrame (option Qc)) (out : DataFrame Qc) :
  open src file_path = Ok f →
  read_csv names f = Ok raw →
  read_and_preprocess src file_path selected = Ok out →
  getitem (fillna 0 raw) selected = Ok out
  ∧ ∀ i r, rows raw !! i = Some r →
      length r = 8%nat
      ∧ (∃ filled, rows (fillna 0 raw) !! i = Some filled
           ∧ ∀ k field, r !! k = Some field → filled !! k = Some (default 0 field))
      ∧ (∃ o, rows out !! i = Some o
           ∧ ∀ j c k field,
               selected !! j = Some c → names !! k = Some c → r !! k = Some field →
               o !! j = Some (default 0 field)).
Proof.
  intros Hopen Hraw Hout.
  unfold read_and_preprocess in Hout. rewrite Hopen in Hout. simpl in Hout.
  rewrite Hraw in Hout. simpl in Hout. split; [done|].
  intros i r Hr. split; [|split].
  - apply (read_csv_row_length names f raw r Hraw). by eapply list_elem_of_lookup_2.
  - exists (default 0 <$> r). split.
    + unfold fillna, line in *. simpl. by rewrite list_lookup_fmap, Hr.
    + intros k field Hk. by rewrite list_lookup_fmap, Hk.
  - by apply (getitem_filled_cell raw selected out i r (read_csv_columns _ _ _ Hraw)).
Qed.

Lemma missing_fields_load_as_zero_witness :
  ∃ o,
    rows (mkDataFrame names
            [ [num 7; num t1005; num 39; 0; num 1; num 0; num 2; num 3];
              [num 7; num t1005; num 33; 0; 0; 0; 0; num 1];
              [num 7; num t1040; num 39; 0; 0; 0; 0; num 6] ]) !! 1%nat = Some o
    ∧ o !! 3%nat = Some 0 ∧ o !! 7%nat = Some (num 1).
Proof.
  destruct (missing_fields_load_as_zero
              [("a.txt"%string, sample_file)] "a.txt" names sample_file
              (mkDataFrame names sample_file)
              (mkDataFrame names
                 [ [num 7; num t1005; num 39; 0; num 1; num 0; num 2; num 3];
                   [num 7; num t1005; num 33; 0; 0; 0; 0; num 1];
                   [num 7; num t1040; num 39; 0; 0; 0; 0; num 6] ])
              ltac:(vm_compute; reflexivity) ltac:(vm_compute; reflexivity)
              ltac:(vm_compute; reflexivity))
    as [_ Hrows].
  destruct (Hrows 1%nat
              (raw (Some 7) (Some t1005) (Some 33) None None None None (Some 1))%Z
              ltac:(reflexivity))
    as (_ & _ & o & Ho & Hcell).
  exists o. split; [exact Ho|]. split.
  - exact (Hcell 3%nat "sms_in"%string 3%nat None eq_refl eq_refl eq_refl).
  - exact (Hcell 7%nat "internet_traffic"%string 7%nat (Some (num 1)) eq_refl eq_refl eq_refl).
Defined.

(** C8, as stated, fails: a line with three fields instead of eight does not
    make the loader fail; the five missing fields are loaded as 0. *)
Lemma short_line_is_loaded :
  ¬ Forall (fun l : line => length l = 8%nat) short_file
  ∧ read_and_preprocess [("a.txt"%string, short_file)] "a.txt" selected_columns
    = Ok (mkDataFrame selected_columns [ [num 1; num 1383260400000; 0] ]).
Proof.
  split; [|vm_compute; reflexivity].
  intros H. apply Forall_inv in H. discriminate H.
Qed.

(** C8, amended: the loader fails, with the parser error of the CSV reader,
    when the first non-blank line has at most eight fields and a later line
    has more than eight.  It loads every file whose lines have at most eight
    fields, fewer included, when the selected columns are among the eight
    names: one row per non-blank line, each selected cell the field of the
    line in that column, and 0 when the line has no such field or the field
    is empty. *)
Theorem loader_fails_on_overlong_lines_only (src : folder) (file_path : string)
    (selected : list string) (f : file) :
  open src file_path = Ok f →
  (∀ c, c ∈ selected → c ∈ names) →
  ((∃ first rest l, filter (fun l : line => l ≠ []) f = first :: rest
                    ∧ (length first ≤ 8)%nat ∧ l ∈ rest ∧ (8 < length l)%nat) →
   read_and_preprocess src file_path selected = Raise ParserError)
  ∧ ((∀ l, l ∈ f → (length l ≤ 8)%nat) →
     ∃ df, read_and_preprocess src file_path selected = Ok df
           ∧ columns df = selected
           ∧ length (rows df) = length (filter (fun l : line => l ≠ []) f)
           ∧ ∀ i l, filter (fun l : line => l ≠ []) f !! i = Some l →
               ∃ o, rows df !! i = Some o
                 ∧ ∀ j c k, selected !! j = Some c → names !! k = Some c →
                     o !! j = Some (default 0 (field_of l k))).
Proof.
  intros Hopen Hsel. unfold read_and_preprocess. rewrite Hopen. simpl. split.
  - intros (first & rest & l & Hbody & Hfirst & Hl & Hlong).
    unfold read_csv. rewrite Hbody. rewrite decide_True; [done|].
    apply Exists_exists. exists l. split; [done|]. simpl. lia.
  - intros Hshort. rewrite (read_csv_short f Hshort). simpl.
    set (raw := mkDataFrame names (pad 8 <$> filter (fun l : line => l ≠ []) f)).
    destruct (locate_present names selected Hsel) as [idx Hidx].
    assert (∃ df, getitem (fillna 0 raw) selected = Ok df) as [df Hdf].
    { unfold getitem. simpl. rewrite Hidx. by eexists. }
    exists df. split; [done|]. split; [|split].
    + by apply (getitem_columns (fillna 0 raw) selected df).
    + unfold getitem in Hdf. simpl in Hdf. rewrite Hidx in Hdf. injection Hdf as <-.
      simpl. by rewrite !length_fmap.
    + intros i l Hl.
      destruct (getitem_filled_cell raw selected df i (pad 8 l)) as (o & Ho & Hcell);
        [done|done|exact (list_lookup_fmap_Some_2 _ _ _ _ Hl)|].
      exists o. split; [done|]. intros j c k Hj Hk.
      apply (Hcell j c k (field_of l k) Hj Hk). apply pad_lookup.
      apply lookup_lt_Some in Hk. simpl in Hk. lia.
Qed.

Lemma selected_columns_named : ∀ c, c ∈ selected_columns → c ∈ names.
Proof.
  intros c Hc. unfold selected_columns in Hc. unfold names.
  repeat (apply elem_of_cons in Hc as [->|Hc]; [set_solver|]).
  by apply elem_of_nil in Hc.
Qed.

Lemma loader_fails_on_overlong_lines_only_witness :
  read_and_preprocess [("a.txt"%string, overlong_file)] "a.txt" selected_columns
  = Raise ParserError
  ∧ ∃ df, read_and_preprocess [("a.txt"%string, short_file)] "a.txt" selected_columns = Ok df
          ∧ columns df = selected_columns
          ∧ length (rows df) = 1%nat
          ∧ ∃ o, rows df !! 0%nat = Some o ∧ o !! 2%nat = Some 0.
Proof.
  split.
  - apply (loader_fails_on_overlong_lines_only
             [("a.txt"%string, overlong_file)] "a.txt" selected_columns overlong_file).
    + vm_compute. reflexivity.
    + apply selected_columns_named.
    + eexists _, _, _. split; [vm_compute; reflexivity|].
      split; [vm_compute; lia|]. split; [left|vm_compute; lia].
  - destruct (loader_fails_on_overlong_lines_only
                [("a.txt"%string, short_file)] "a.txt" selected_columns short_file
                ltac:(vm_compute; reflexivity) selected_columns_named) as [_ Hloads].
    destruct Hloads as (df & Hdf & Hcols & Hlen & Hrows).
    { intros l ->%list_elem_of_singleton. vm_compute. lia. }
    exists df. split; [exact Hdf|]. split; [exact Hcols|]. split; [exact Hlen|].
    destruct (Hrows 0%nat [Some (num 1); Some (num 1383260400000); Some (num 39)] eq_refl)
      as (o & Ho & Hcell).
    exists o. split; [exact Ho|].
    exact (Hcell 2%nat "internet_traffic"%string 7%nat eq_refl eq_refl).
Defined.

Example overlong_line_raises :
  read_and_preprocess [("a.txt"%string, overlong_file)] "a.txt" selected_columns
  = Raise ParserError.
Proof. vm_compute. reflexivity. Qed.

(** ** The directory driver *)

Example splitext_names :
  splitext "sms-call-internet-mi-2013-11-01.txt"
  = ("sms-call-internet-mi-2013-11-01", ".txt")%string
  ∧ splitext "a.b.txt" = ("a.b", ".txt")%string
  ∧ splitext ".txt" = (".txt", "")%string.
Proof. vm_compute. auto. Qed.

Example endswith_txt :
  endswith "a.txt" ".txt" = true ∧ endswith "a.csv" ".txt" = false
  ∧ endswith "txt" ".txt" = false.
Proof. vm_compute. auto. Qed.

Lemma list_ascii_of_string_app s t :
  list_ascii_of_string (s ++ t) = list_ascii_of_string s ++ list_ascii_of_string t.
Proof. induction s as [|c s IH]; [done|]. simpl. by rewrite IH. Qed.

Lemma string_app_inv_tail (s t u : string) : (s ++ u = t ++ u)%string → s = t.
Proof.
  intros H. apply (f_equal list_ascii_of_string) in H.
  rewrite !list_ascii_of_string_app in H. apply app_inv_tail in H.
  apply (f_equal string_of_list_ascii) in H.
  by rewrite !string_of_list_ascii_of_string in H.
Qed.

Lemma output_name_base a b :
  output_name a = output_name b → (splitext a).1 = (splitext b).1.
Proof.
  unfold output_name. intros H%string_app_inv_tail.
  by apply (inj (String.append "cleaned-")) in H.
Qed.

Lemma clean_data_pipeline src base selected dst path :
  clean_data src base selected dst path
  = (out ← pipeline src selected base; Ok (<[(path ++ ".csv")%string := out]> dst)).
Proof.
  unfold clean_data, pipeline.
  destruct (read_and_preprocess _ _ _) as [df|e]; [|done]. simpl.
  destruct (aggregate_data df) as [agg|e]; [|done]. done.
Qed.

Lemma for_each_file_cons src d selected name files w :
  for_each_file src d selected (name :: files) w
  = match pipeline src selected (splitext name).1 with
    | Raise e => (w, Some e)
    | Ok out =>
        for_each_file src d selected files
          (mkWorld (<[output_name name := out]> (dest w))
             (stdout w ++ [(d ++ "cleaned-" ++ (splitext name).1 ++ ".csv finished "
                              ++ String "010" "")%string]))
    end.
Proof.
  simpl. rewrite clean_data_pipeline.
  by destruct (pipeline src selected (splitext name).1).
Qed.

Lemma for_each_file_stops src d selected pre name post e :
  (∀ n, n ∈ pre → ∃ out, pipeline src selected (splitext n).1 = Ok out) →
  pipeline src selected (splitext name).1 = Raise e →
  ∀ w, ∃ w',
    for_each_file src d selected (pre ++ name :: post) w = (w', Some e)
    ∧ (∀ n, n ∈ pre →
         ∃ out, pipeline src selected (splitext n).1 = Ok out
                ∧ dest w' !! output_name n = Some out)
    ∧ (∀ k, (∀ n, n ∈ pre → k ≠ output_name n) → dest w' !! k = dest w !! k).
Proof.
  intros Hpre Hfail. induction pre as [|n pre IH]; intros w.
  - exists w. simpl app. rewrite for_each_file_cons, Hfail.
    split; [done|]. split; [by intros n ?%elem_of_nil|done].
  - destruct (Hpre n) as [out Hn]; [left|].
    simpl app. rewrite for_each_file_cons, Hn.
    destruct (IH (fun m Hm => Hpre m (list_elem_of_further _ _ _ Hm))
                 (mkWorld (<[output_name n := out]> (dest w))
                   (stdout w ++ [(d ++ "cleaned-" ++ (splitext n).1 ++ ".csv finished "
                                    ++ String "010" "")%string])))
      as (w' & Hrun & Hwritten & Hother).
    exists w'. split; [done|]. split.
    + intros m [->|Hm]%elem_of_cons; [|by apply Hwritten].
      exists out. split; [done|].
      destruct (decide (output_name n ∈ output_name <$> pre))
        as [(m' & Heq & Hm')%list_elem_of_fmap|Hno].
      * symmetry in Heq. destruct (Hwritten m' Hm') as (out' & Hpipe & Hlook).
        assert (Hbase : (splitext m').1 = (splitext n).1) by by apply output_name_base.
        rewrite Hbase, Hn in Hpipe. injection Hpipe as <-. by rewrite <- Heq.
      * rewrite Hother; [simpl; by rewrite lookup_insert_eq|].
        intros m' Hm' Heq. apply Hno. rewrite Heq. by apply list_elem_of_fmap_2.
    + intros k Hk. rewrite Hother.
      * simpl. rewrite lookup_insert_ne; [done|]. intros Heq. by apply (Hk n); [left|].
      * intros m Hm. apply Hk. by right.
Qed.

Example sample_is_cleaned : pipeline batch selected_columns "b" = Ok sample_cleaned.
Proof. vm_compute. reflexivity. Qed.

(** A run without failure: only the [.txt] entry is processed. *)
Example notes_are_skipped :
  process_files [("a.txt"%string, sample_file); ("notes.md"%string, [])]
    cleaned_dataset_folder selected_columns (mkWorld ∅ [])
  = (mkWorld {[ "cleaned-a.csv"%string := sample_cleaned ]}
       ["./cleaned_dataset/cleaned-a.csv finished " ++ String "010" ""]%string,
     None).
Proof. vm_compute. reflexivity. Qed.

(** C7, as stated, fails: [a.txt] has an overlong line and is listed before
    the valid [b.txt]; the run ends with the parser error of [a.txt] and
    writes nothing for [b.txt]. *)
Lemma failure_of_one_file_ends_the_batch :
  pipeline batch selected_columns "b" = Ok sample_cleaned
  ∧ ∃ w, process_files batch cleaned_dataset_folder selected_columns (mkWorld ∅ [])
         = (w, Some ParserError)
         ∧ dest w !! "cleaned-b.csv"%string = None.
Proof.
  split; [vm_compute; reflexivity|].
  exists (mkWorld ∅ []). split; vm_compute; reflexivity.
Qed.

(** C7, amended: the driver processes the [.txt] files one after the other
    in the order of the listing and has no recovery: when the files listed
    before some file are processed without error and that file fails, the run
    ends with the error of that file; the outputs of the files before it are
    in the destination folder, and nothing else was written there, so the
    files after it are not processed. *)
Theorem first_failure_ends_the_run (src : folder) (destination_folder : string)
    (selected : list string) (pre : list string) (name : string) (post : list string)
    (e : exn) (w : world) :
  filter (fun file => endswith file ".txt" = true) (listdir src) = pre ++ name :: post →
  (∀ n, n ∈ pre → ∃ out, pipeline src selected (splitext n).1 = Ok out) →
  pipeline src selected (splitext name).1 = Raise e →
  ∃ w',
    process_files src destination_folder selected w = (w', Some e)
    ∧ (∀ n, n ∈ pre →
         ∃ out, pipeline src selected (splitext n).1 = Ok out
                ∧ dest w' !! output_name n = Some out)
    ∧ (∀ k, (∀ n, n ∈ pre → k ≠ output_name n) → dest w' !! k = dest w !! k).
Proof.
  intros Hlist Hpre Hfail. unfold process_files. rewrite Hlist.
  by apply for_each_file_stops.
Qed.

Lemma first_failure_ends_the_run_witness :
  ∃ w',
    process_files long_batch cleaned_dataset_folder selected_columns (mkWorld ∅ [])
    = (w', Some ParserError)
    ∧ (∀ n, n ∈ ["b.txt"%string] →
         ∃ out, pipeline long_batch selected_columns (splitext n).1 = Ok out
                ∧ dest w' !! output_name n = Some out)
    ∧ (∀ k, (∀ n, n ∈ ["b.txt"%string] → k ≠ output_name n) →
         dest w' !! k = dest (mkWorld ∅ []) !! k).
Proof.
  apply (first_failure_ends_the_run long_batch cleaned_dataset_folder selected_columns
           ["b.txt"%string] "a.txt" ["c.txt"%string] ParserError).
  - vm_compute. reflexivity.
  - intros n ->%list_elem_of_singleton. exists sample_cleaned. vm_compute. reflexivity.
  - vm_compute. reflexivity.
Defined.

(** C9, as stated, fails: the driver has no frequency to configure.  The
    rows of [sample_file] at 10:05 and 10:40 are written as one hourly row,
    where a resampling every thirty minutes gives two rows. *)
Lemma driver_ignores_other_frequencies :
  ∃ agg w,
    read_and_preprocess [("a.txt"%string, sample_file)] "a.txt" selected_columns
      ≫= aggregate_data = Ok agg
    ∧ resample_data agg half_hourly
      = Ok [mkBucket (num 7) (stamp 10 0) (num 4); mkBucket (num 7) (stamp 10 30) (num 6)]
    ∧ process_files [("a.txt"%string, sample_file)] cleaned_dataset_folder selected_columns
        (mkWorld ∅ []) = (w, None)
    ∧ dest w !! "cleaned-a.csv"%string = Some [mkBucket (num 7) (stamp 10 0) (num 10)].
Proof.
  eexists. eexists. split; [vm_compute; reflexivity|].
  split; [vm_compute; reflexivity|].
  split; vm_compute; reflexivity.
Qed.

Lemma for_each_file_hourly src d selected files :
  ∀ w w' res name out,
    for_each_file src d selected files w = (w', res) →
    dest w' !! name = Some out →
    dest w !! name = Some out
    ∨ ∃ base df agg,
        read_and_preprocess src (base ++ ".txt") selected = Ok df
        ∧ aggregate_data df = Ok agg
        ∧ resample_data agg hourly = Ok out.
Proof.
  induction files as [|n files IH]; intros w w' res name out Hrun Hlook.
  - injection Hrun as <- _. by left.
  - rewrite for_each_file_cons in Hrun.
    destruct (pipeline src selected (splitext n).1) as [o|e] eqn:Hpipe.
    + destruct (IH _ _ _ _ _ Hrun Hlook) as [Hold|Hnew]; [|by right].
      simpl in Hold. destruct (decide (output_name n = name)) as [<-|Hne].
      * rewrite lookup_insert_eq in Hold. injection Hold as ->. right.
        unfold pipeline in Hpipe.
        apply bind_Ok in Hpipe as (df & Hdf & (agg & Hagg & Hres)%bind_Ok).
        by exists (splitext n).1, df, agg.
      * rewrite lookup_insert_ne in Hold by done. by left.
    + injection Hrun as <- _. by left.
Qed.

(** C9, amended: [resample_data] takes a frequency, hourly by default; the
    per-file pipeline and the driver take none, and every table the driver
    writes is the hourly resampling of the aggregated rows of a file. *)
Theorem driver_resamples_hourly (src : folder) (destination_folder : string)
    (selected : list string) (w w' : world) (res : option exn)
    (name : string) (out : list bucket_row) :
  process_files src destination_folder selected w = (w', res) →
  dest w' !! name = Some out →
  dest w !! name = Some out
  ∨ ∃ base df agg,
      read_and_preprocess src (base ++ ".txt") selected = Ok df
      ∧ aggregate_data df = Ok agg
      ∧ resample_data agg hourly = Ok out.
Proof. unfold process_files. apply for_each_file_hourly. Qed.

Lemma driver_resamples_hourly_witness :
  (∅ : gmap string (list bucket_row)) !! "cleaned-b.csv"%string = Some sample_cleaned
  ∨ ∃ base df agg,
      read_and_preprocess long_batch (base ++ ".txt") selected_columns = Ok df
      ∧ aggregate_data df = Ok agg
      ∧ resample_data agg hourly = Ok sample_cleaned.
Proof.
  apply (driver_resamples_hourly long_batch cleaned_dataset_folder selected_columns
           (mkWorld ∅ [])
           (mkWorld {[ "cleaned-b.csv"%string := sample_cleaned ]}
              ["./cleaned_dataset/cleaned-b.csv finished " ++ String "010" ""]%string)
           (Some ParserError) "cleaned-b.csv").
  - vm_compute. reflexivity.
  - vm_compute. reflexivity.
Defined.

(** * Further properties of the notebook's functions *)

(** ** [read_and_preprocess] *)

Lemma read_csv_rows_length cols f raw :
  read_csv cols f = Ok raw →
  length (rows raw) = length (filter (fun l : line => l ≠ []) f).
Proof.
  unfold read_csv. destruct (filter _ f) as [|first rest]; [by intros [= <-]|].
  case_decide; [done|]. intros [= <-]. simpl. by rewrite length_fmap.
Qed.

(** X1: the loaded table has the requested columns in the requested order,
    one row per non-blank line of the file, every row with one cell per
    requested column. *)
Theorem loaded_table_shape (src : folder) (file_path : string) (selected : list string)
    (f : file) (out : DataFrame Qc) :
  open src file_path = Ok f →
  read_and_preprocess src file_path selected = Ok out →
  columns out = selected
  ∧ length (rows out) = length (filter (fun l : line => l ≠ []) f)
  ∧ ∀ r, r ∈ rows out → length r = length selected.
Proof.
  intros Hopen Hout. unfold read_and_preprocess in Hout. rewrite Hopen in Hout.
  simpl in Hout. apply bind_Ok in Hout as (raw & Hraw & Hget). simpl in Hget.
  assert (Hcols : columns (fillna 0 raw) = names) by apply (read_csv_columns _ _ _ Hraw).
  split; [by apply (getitem_columns (fillna 0 raw))|].
  unfold getitem in Hget. rewrite Hcols in Hget.
  apply bind_Ok in Hget as (idx & Hidx & [= <-]). simpl. split.
  - rewrite !length_fmap. by apply (read_csv_rows_length names).
  - intros r (r' & -> & _)%list_elem_of_fmap. rewrite length_fmap.
    apply (locate_length names); [apply NoDup_names|done].
Qed.

Lemma loaded_table_shape_witness :
  columns (mkDataFrame selected_columns
             [ [num 7; num t1005; num 3]; [num 7; num t1005; num 1];
               [num 7; num t1040; num 6] ]) = selected_columns
  ∧ length (rows (mkDataFrame selected_columns
                    [ [num 7; num t1005; num 3]; [num 7; num t1005; num 1];
                      [num 7; num t1040; num 6] ]))
    = length (filter (fun l : line => l ≠ []) ([] :: sample_file))
  ∧ ∀ r, r ∈ rows (mkDataFrame selected_columns
                     [ [num 7; num t1005; num 3]; [num 7; num t1005; num 1];
                       [num 7; num t1040; num 6] ]) →
         length r = length selected_columns.
Proof.
  apply (loaded_table_shape [("a.txt"%string, [] :: sample_file)] "a.txt").
  - vm_compute. reflexivity.
  - vm_compute. reflexivity.
Defined.

Lemma locate_unknown cols pre c post :
  (∀ x, x ∈ pre → x ∈ cols) → c ∉ cols →
  locate cols (pre ++ c :: post) = Raise (KeyError c).
Proof.
  intros Hpre Hc. induction pre as [|x pre IH]; simpl.
  - unfold positions. by rewrite positions_from_absent.
  - assert (x ∈ cols) as (i & Hi%elem_of_positions)%list_elem_of_lookup_1
      by (apply Hpre; left).
    destruct (positions x cols) as [|p ps]; [by apply elem_of_nil in Hi|].
    rewrite IH; [done|]. intros y Hy. apply Hpre. by right.
Qed.

(** X2: when the file is read without error, the first requested column
    that is not one of the eight names makes the loader raise a [KeyError]
    with that label. *)
Theorem unknown_column_raises (src : folder) (file_path : string) (f : file)
    (raw : DataFrame (option Qc)) (pre : list string) (c : string) (post : list string) :
  open src file_path = Ok f →
  read_csv names f = Ok raw →
  (∀ x, x ∈ pre → x ∈ names) → c ∉ names →
  read_and_preprocess src file_path (pre ++ c :: post) = Raise (KeyError c).
Proof.
  intros Hopen Hraw Hpre Hc. unfold read_and_preprocess. rewrite Hopen. simpl.
  rewrite Hraw. simpl. unfold getitem. simpl.
  rewrite (read_csv_columns _ _ _ Hraw). by rewrite locate_unknown.
Qed.

Lemma unknown_column_raises_witness :
  read_and_preprocess [("a.txt"%string, sample_file)] "a.txt"
    (["square_id"%string] ++ "traffic"%string :: ["time_interval"%string])
  = Raise (KeyError "traffic").
Proof.
  apply (unknown_column_raises _ _ sample_file (mkDataFrame names sample_file)).
  - vm_compute. reflexivity.
  - vm_compute. reflexivity.
  - intros x ->%list_elem_of_singleton. unfold names. set_solver.
  - apply (bool_decide_unpack _). vm_compute. exact I.
Defined.

(** ** [aggregate_data] *)

Lemma find_column_absent c cols : c ∉ cols → find_column c cols = Raise (KeyError c).
Proof.
  intros Hc. unfold find_column, positions. by rewrite positions_from_absent.
Qed.

(** X3: a table without a [square_id] column makes the aggregator raise a
    [KeyError] for [square_id]; a table with that column and without a
    [time_interval] column makes it raise one for [time_interval]. *)
Theorem aggregate_data_needs_both_keys (df : DataFrame Qc) :
  ("square_id"%string ∉ columns df →
   aggregate_data df = Raise (KeyError "square_id"))
  ∧ (∀ i, find_column "square_id" (columns df) = Ok i →
       "time_interval"%string ∉ columns df →
       aggregate_data df = Raise (KeyError "time_interval")).
Proof.
  unfold aggregate_data, groupby_sum. split.
  - intros Hsq. by rewrite (find_column_absent _ _ Hsq).
  - intros i Hi Ht. rewrite Hi. simpl. by rewrite (find_column_absent _ _ Ht).
Qed.

Lemma aggregate_data_needs_both_keys_witness :
  aggregate_data (mkDataFrame ["time_interval"; "internet_traffic"]%string
                    [ [num 1383260400000; num 5] ])
  = Raise (KeyError "square_id")
  ∧ aggregate_data (mkDataFrame ["square_id"; "internet_traffic"]%string [ [num 1; num 5] ])
    = Raise (KeyError "time_interval").
Proof.
  split.
  - apply (aggregate_data_needs_both_keys
             (mkDataFrame ["time_interval"; "internet_traffic"]%string
                [ [num 1383260400000; num 5] ])).
    apply (bool_decide_unpack _). vm_compute. exact I.
  - apply (aggregate_data_needs_both_keys
             (mkDataFrame ["square_id"; "internet_traffic"]%string [ [num 1; num 5] ])
           ) with (i := 0%nat).
    + vm_compute. reflexivity.
    + apply (bool_decide_unpack _). vm_compute. exact I.
Defined.

Lemma NoDup_group_keys i1 i2 rs : NoDup (group_keys i1 i2 rs).
Proof.
  unfold group_keys. rewrite merge_sort_Permutation. apply NoDup_remove_dups.
Qed.

Lemma value_positions_lt i1 i2 cols j :
  j ∈ value_positions i1 i2 cols → j ≠ i1 ∧ j ≠ i2 ∧ (j < length cols)%nat.
Proof.
  unfold value_positions. intros [[? ?] Hj%elem_of_seq]%list_elem_of_filter. lia.
Qed.



#[local] Instance key_le_total : Total key_le.
Proof.
  intros [a1 a2] [b1 b2]. unfold key_le. simpl.
  destruct (Qclt_le_dec a1 b1) as [?|Hba]; [by left; left|].
  apply Qcle_lt_or_eq in Hba as [?|<-]; [by right; left|].
  destruct (Qc_le_total a2 b2); [left|right]; by right.
Qed.

#[local] Instance key_le_trans : Transitive key_le.
Proof.
  intros [a1 a2] [b1 b2] [c1 c2]. unfold key_le. simpl.
  intros [Hab|[-> Hab]] [Hbc|[-> Hbc]].
  - left. by eapply Qclt_trans.
  - by left.
  - by left.
  - right. split; [done|]. by eapply Qcle_trans.
Qed.

Lemma to_datetime_ms_mono x y : x ≤ y → (to_datetime_ms x ≤ to_datetime_ms y)%Z.
Proof.
  intros Hxy. unfold to_datetime_ms. apply Qfloor_resp_le.
  apply Qmult_le_compat_r; [done|by vm_compute].
Qed.

(** X5: the aggregated rows come out in ascending order of [square_id] and,
    within a square, of timestamp. *)
Theorem aggregate_data_sorted (df : DataFrame Qc) (out : TimeFrame) :
  aggregate_data df = Ok out → StronglySorted aggregated_le (tf_rows out).
Proof.
  intros (i_sq & i_t & Hsq & Ht & ->)%aggregate_data_inv. simpl.
  apply (StronglySorted_fmap _ key_le); [|apply StronglySorted_merge_sort; apply _].
  intros [a1 a2] [b1 b2] [Hlt|[-> Hle]]; unfold aggregated_le, cell; simpl in *.
  - by left.
  - right. split; [done|]. by apply to_datetime_ms_mono.
Qed.

Lemma aggregate_data_sorted_witness :
  StronglySorted aggregated_le (tf_rows duplicates_aggregated).
Proof.
  apply (aggregate_data_sorted
           (mkDataFrame selected_columns
              [ [num 2; num 1383260400000; num 0]; [num 1; num 1383260400000; num 3];
                [num 1; num 1383260400000; num 2] ])).
  vm_compute. reflexivity.
Defined.

Lemma to_datetime_ms_num z : to_datetime_ms (num z) = (z * 1000000)%Z.
Proof.
  unfold to_datetime_ms. rewrite <- (Qfloor_Z (z * 1000000)).
  apply Qfloor_comp. unfold num. simpl.
  rewrite !Qred_correct. by rewrite inject_Z_mult.
Qed.

(** X6: a row whose [time_interval] is a whole number [z] of epoch
    milliseconds is aggregated under the timestamp of exactly [z] million
    nanoseconds, next to its [square_id]. *)
Theorem aggregate_data_converts_milliseconds (df : DataFrame Qc) (out : TimeFrame)
    (i_sq i_t : nat) (r : list Qc) (z : Z) :
  aggregate_data df = Ok out →
  find_column "square_id" (columns df) = Ok i_sq →
  find_column "time_interval" (columns df) = Ok i_t →
  r ∈ rows df → cell r i_t = num z →
  ∃ o, o ∈ tf_rows out ∧ o.1 = (z * 1000000)%Z ∧ head o.2 = Some (cell r i_sq).
Proof.
  intros (i_sq' & i_t' & Hsq & Ht & ->)%aggregate_data_inv Hsq' Ht' Hr Hz.
  rewrite Hsq in Hsq'. rewrite Ht in Ht'. injection Hsq' as ->. injection Ht' as ->.
  eexists. split.
  - simpl. apply list_elem_of_fmap. exists (row_key i_sq i_t r).
    split; [done|]. by apply row_key_in_group_keys.
  - simpl. by rewrite Hz, to_datetime_ms_num.
Qed.

Lemma aggregate_data_converts_milliseconds_witness :
  ∃ o, o ∈ tf_rows duplicates_aggregated
       ∧ o.1 = (1383260400000 * 1000000)%Z ∧ head o.2 = Some (num 2).
Proof.
  apply (aggregate_data_converts_milliseconds duplicates_df duplicates_aggregated
           0%nat 1%nat [num 2; num 1383260400000; num 0] 1383260400000).
  - vm_compute. reflexivity.
  - vm_compute. reflexivity.
  - vm_compute. reflexivity.
  - right. right. left.
  - reflexivity.
Defined.

(** ** [resample_data] *)

Lemma NoDup_positions_from n c cols : NoDup (positions_from n c cols).
Proof.
  revert n. induction cols as [|x cols IH]; intros n; simpl; [constructor|].
  destruct (decide (x = c)); [|apply IH].
  constructor; [|apply IH]. intros [Hle _]%elem_of_positions_from. lia.
Qed.

Lemma find_column_at c cols i :
  cols !! i = Some c → (∀ j, cols !! j = Some c → j = i) → find_column c cols = Ok i.
Proof.
  intros Hi Huniq. unfold find_column.
  pose proof (NoDup_positions_from 0 c cols) as Hnd. fold (positions c cols) in Hnd.
  assert (Hall : ∀ j, j ∈ positions c cols → j = i).
  { intros j Hj%elem_of_positions. by apply Huniq. }
  apply elem_of_positions in Hi.
  destruct (positions c cols) as [|a [|b ps]].
  - by apply elem_of_nil in Hi.
  - f_equal. apply Hall. left.
  - exfalso. assert (a = i) as -> by (apply Hall; left).
    assert (b = i) as -> by (apply Hall; right; left).
    apply NoDup_cons in Hnd as [Hnotin _]. apply Hnotin. left.
Qed.

Lemma NoDup_value_positions i1 i2 cols : NoDup (value_positions i1 i2 cols).
Proof. unfold value_positions. apply NoDup_filter, NoDup_seq. Qed.

Section aggregated_labels.
Variables (cols : list string) (i_sq i_t : nat).
Hypothesis square_at : find_column "square_id" cols = Ok i_sq.

Local Abbreviation vs := (value_positions i_sq i_t cols).
Local Abbreviation labels :=
  ("square_id"%string :: ((fun i => default ""%string (cols !! i)) <$> vs)).

Lemma aggregated_label_lookup q c :
  c ≠ ""%string →
  labels !! S q = Some c → ∃ i, vs !! q = Some i ∧ cols !! i = Some c.
Proof.
  intros Hc. simpl. rewrite list_lookup_fmap.
  destruct (vs !! q) as [i|] eqn:Hq; [|done]. simpl. intros [= Hi].
  exists i. split; [done|]. destruct (cols !! i) as [c'|]; simpl in Hi; congruence.
Qed.

Lemma aggregated_square_first : find_column "square_id" labels = Ok 0%nat.
Proof.
  apply find_column_at; [done|]. intros [|q] Hq; [done|]. exfalso.
  apply aggregated_label_lookup in Hq as (i & Hi & Hc); [|done].
  apply (find_column_unique _ _ _ _ square_at) in Hc as ->.
  apply list_elem_of_lookup_2, value_positions_lt in Hi. tauto.
Qed.

Lemma aggregated_label_at c i p :
  c ≠ ""%string → c ≠ "square_id"%string →
  find_column c cols = Ok i → vs !! p = Some i →
  find_column c labels = Ok (S p).
Proof.
  intros Hc Hsq Hi Hp.
  assert (Hci : cols !! i = Some c).
  { apply elem_of_positions. unfold find_column in Hi.
    destruct (positions c cols) as [|a [|b ps]]; try done.
    injection Hi as ->. left. }
  apply find_column_at.
  - simpl. rewrite list_lookup_fmap, Hp. simpl. by rewrite Hci.
  - intros [|q] Hq; [simpl in Hq; congruence|]. f_equal.
    apply aggregated_label_lookup in Hq as (i' & Hi' & Hc'); [|done].
    apply (find_column_unique _ _ _ _ Hi) in Hc' as ->.
    by eapply NoDup_lookup; [apply NoDup_value_positions|..].
Qed.

Lemma aggregated_label_absent c :
  c ≠ ""%string → c ≠ "square_id"%string → c ∉ cols →
  find_column c labels = Raise (KeyError c).
Proof.
  intros Hc Hsq Hcols. apply find_column_absent.
  intros [[|q] Hq]%list_elem_of_lookup_1; [simpl in Hq; congruence|].
  apply aggregated_label_lookup in Hq as (i & _ & Hi); [|done].
  apply Hcols. by eapply list_elem_of_lookup_2.
Qed.
End aggregated_labels.

(** X7: the resampler needs the traffic column: on the aggregated form of a
    table without an [internet_traffic] column it raises a [KeyError] for
    that label, at every frequency. *)
Theorem traffic_column_is_required (df : DataFrame Qc) (agg : TimeFrame) (f : frequency) :
  aggregate_data df = Ok agg →
  "internet_traffic"%string ∉ columns df →
  resample_data agg f = Raise (KeyError "internet_traffic").
Proof.
  intros (i_sq & i_t & Hsq & Ht & ->)%aggregate_data_inv Habsent.
  unfold resample_data, groupby_resample_sum. simpl tf_columns.
  rewrite (aggregated_square_first _ _ i_t Hsq). simpl.
  by rewrite (aggregated_label_absent (columns df) i_sq i_t "internet_traffic").
Qed.

Lemma traffic_column_is_required_witness :
  resample_data
    (mkTimeFrame ["square_id"; "sms_in"]%string
       [ (1383260400000000000%Z, [num 1; num 5]) ]) hourly
  = Raise (KeyError "internet_traffic").
Proof.
  apply (traffic_column_is_required
           (mkDataFrame ["square_id"; "time_interval"; "sms_in"]%string
              [ [num 1; num 1383260400000; num 5] ])).
  - vm_compute. reflexivity.
  - apply (bool_decide_unpack _). vm_compute. exact I.
Defined.

(** X8: the resampled table invents no bucket: every row of it stands for
    at least one aggregated row of the same square with a timestamp in the
    left-closed window that starts at the row's label. *)
Theorem resampled_bucket_has_a_row (df : TimeFrame) (f : frequency)
    (out : list bucket_row) (r : bucket_row) :
  resample_data df f = Ok out → r ∈ out →
  ∃ p, p ∈ tf_rows df
       ∧ tf_cell df "square_id" p.2 = square_id r
       ∧ (time_interval r ≤ p.1 < time_interval r + Z.pos f)%Z.
Proof.
  intros Hout Hr. destruct (resample_data_row df f out r Hout Hr) as [Hpos Htotal].
  rewrite Htotal in Hpos. unfold bucket_total in Hpos.
  destruct (filter _ (rows_of_square df (square_id r))) as [|p ps] eqn:Hbin.
  - by apply Qclt_not_eq in Hpos.
  - assert (Hp : p ∈ p :: ps) by left. rewrite <- Hbin in Hp.
    apply list_elem_of_filter in Hp as [Hwin Hp].
    apply list_elem_of_filter in Hp as [Hsq Hp]. by exists p.
Qed.

Lemma resampled_bucket_has_a_row_witness :
  ∃ p, p ∈ tf_rows gap_df
       ∧ tf_cell gap_df "square_id" p.2 = num 7
       ∧ (stamp 12 0 ≤ p.1 < stamp 12 0 + Z.pos hourly)%Z.
Proof.
  apply (resampled_bucket_has_a_row gap_df hourly gap_cleaned
           (mkBucket (num 7) (stamp 12 0) (num 2))).
  - vm_compute. reflexivity.
  - right. left.
Defined.

(** X9: at every frequency the buckets of a square are counted in steps of
    the frequency from midnight of the day of the square's earliest row; the
    first label is the one whose window holds the earliest row, and no label
    lies after the latest row. *)
Theorem buckets_are_anchored_at_first_midnight (df : TimeFrame) (f : frequency)
    (out : list bucket_row) (r : bucket_row) :
  resample_data df f = Ok out → r ∈ out →
  ∃ t ts,
    fst <$> rows_of_square df (square_id r) = t :: ts
    ∧ ((time_interval r - start_day (earliest t ts)) `mod` Z.pos f = 0)%Z
    ∧ (earliest t ts < time_interval r + Z.pos f)%Z
    ∧ (time_interval r ≤ latest t ts)%Z.
Proof.
  intros (i_sq & i_tr & Hsq & Htr & ->)%resample_data_inv [_ Hr]%list_elem_of_filter.
  apply (elem_of_resample_groups df f i_sq i_tr Hsq Htr) in Hr as (_ & Hb & _).
  destruct (fst <$> rows_of_square df (square_id r)) as [|t ts]; [by apply elem_of_nil in Hb|].
  exists t, ts. split; [done|]. simpl in Hb.
  assert (Hin : t ∈ t :: ts) by left.
  pose proof (earliest_le t ts t Hin) as Hlo. pose proof (latest_ge t ts t Hin) as Hhi.
  apply elem_of_bin_range in Hb as (k & [Hk1 Hk2] & ->); [|done|lia].
  set (origin := start_day (earliest t ts)) in *.
  pose proof (Z.div_mod (earliest t ts - origin) (Z.pos f)) as Hd1.
  pose proof (Z.mod_pos_bound (earliest t ts - origin) (Z.pos f)) as Hb1.
  pose proof (Z.div_mod (latest t ts - origin) (Z.pos f)) as Hd2.
  pose proof (Z.mod_pos_bound (latest t ts - origin) (Z.pos f)) as Hb2.
  split; [|split].
  - replace (origin + Z.pos f * k - origin)%Z with (k * Z.pos f)%Z by lia.
    by apply Z.mod_mul.
  - nia.
  - nia.
Qed.

Lemma buckets_are_anchored_at_first_midnight_witness :
  ∃ t ts,
    fst <$> rows_of_square two_days_df (num 2) = t :: ts
    ∧ ((stamp 24 0 - start_day (earliest t ts)) `mod` Z.pos seven_hours = 0)%Z
    ∧ (earliest t ts < stamp 24 0 + Z.pos seven_hours)%Z
    ∧ (stamp 24 0 ≤ latest t ts)%Z.
Proof.
  apply (buckets_are_anchored_at_first_midnight two_days_df seven_hours two_days_cleaned
           (mkBucket (num 2) (stamp 24 0) (num 1))).
  - vm_compute. reflexivity.
  - right. left.
Defined.

(** ** [aggregate_data] followed by [resample_data] *)

Lemma Qcsum_nonneg l : (∀ x, x ∈ l → 0 ≤ x) → 0 ≤ Qcsum l.
Proof.
  induction l as [|x l IH]; intros Hl; [done|].
  rewrite Qcsum_cons. apply Qcplus_nonneg_nonneg; [apply Hl; left|].
  apply IH. intros y Hy. apply Hl. by right.
Qed.

Lemma value_position_of cols i_sq i_t (c : string) i :
  find_column "square_id" cols = Ok i_sq → find_column "time_interval" cols = Ok i_t →
  c ≠ "square_id"%string → c ≠ "time_interval"%string →
  find_column c cols = Ok i →
  ∃ p, value_positions i_sq i_t cols !! p = Some i.
Proof.
  intros Hsq%find_column_lookup Ht%find_column_lookup Hc1 Hc2 Hi%find_column_lookup.
  apply list_elem_of_lookup_1. unfold value_positions. apply list_elem_of_filter.
  split; [split; intros ->; congruence|].
  apply elem_of_seq. apply lookup_lt_Some in Hi. lia.
Qed.

Section aggregated_then_resampled.
Variables (df : DataFrame Qc) (i_sq i_t i_tr p : nat).
Hypothesis square_at : find_column "square_id" (columns df) = Ok i_sq.
Hypothesis time_at : find_column "time_interval" (columns df) = Ok i_t.
Hypothesis traffic_at : find_column "internet_traffic" (columns df) = Ok i_tr.
Hypothesis traffic_in : value_positions i_sq i_t (columns df) !! p = Some i_tr.

Local Abbreviation vs := (value_positions i_sq i_t (columns df)).
Local Abbreviation aggregated :=
  ((fun k : key =>
      (to_datetime_ms k.2, k.1 :: group_sums vs (group i_sq i_t k (rows df))))
     <$> group_keys i_sq i_t (rows df)).

Lemma aggregated_traffic_cell k :
  cell (k.1 :: group_sums vs (group i_sq i_t k (rows df))) (S p)
  = Qcsum ((fun r : list Qc => cell r i_tr) <$> group i_sq i_t k (rows df)).
Proof.
  unfold cell at 1. simpl. apply list_lookup_total_correct.
  unfold group_sums. by rewrite list_lookup_fmap, traffic_in.
Qed.

(** The aggregated traffic of a square is the traffic of its input rows. *)
Lemma aggregated_square_total s :
  Qcsum ((fun o : Z * list Qc => cell o.2 (S p))
           <$> filter (fun o : Z * list Qc => cell o.2 0 = s) aggregated)
  = Qcsum ((fun r : list Qc => cell r i_tr)
             <$> filter (fun r : list Qc => cell r i_sq = s) (rows df)).
Proof.
  rewrite filter_fmap, <- list_fmap_compose.
  rewrite <- (Qcsum_groups (fun r : list Qc => cell r i_tr) (row_key i_sq i_t)
                (filter (fun r : list Qc => cell r i_sq = s) (rows df))
                (filter (fun k : key => k.1 = s) (group_keys i_sq i_t (rows df)))).
  - rewrite (list_filter_iff _ (fun k : key => k.1 = s)) by done.
    f_equal. apply list_fmap_ext. intros q k Hk.
    etrans; [apply (aggregated_traffic_cell k)|].
    do 2 f_equal. unfold group.
    symmetry. apply list_filter_filter_l. intros r <-.
    apply list_elem_of_lookup_2, list_elem_of_filter in Hk as [Hk _]. done.
  - apply NoDup_filter, NoDup_group_keys.
  - intros r [Hs Hr]%list_elem_of_filter. apply list_elem_of_filter.
    split; [done|]. by apply row_key_in_group_keys.
Qed.

Lemma aggregated_traffic_nonneg :
  (∀ r, r ∈ rows df → 0 ≤ cell r i_tr) →
  ∀ o, o ∈ aggregated → 0 ≤ cell o.2 (S p).
Proof.
  intros Hnn o (k & -> & _)%list_elem_of_fmap.
  cbn [snd]. rewrite aggregated_traffic_cell. apply Qcsum_nonneg.
  intros x (r & -> & [_ Hr]%list_elem_of_filter)%list_elem_of_fmap. by apply Hnn.
Qed.
End aggregated_then_resampled.

Lemma aggregate_then_resample_total (df : DataFrame Qc) (agg : TimeFrame)
    (f : frequency) (out : list bucket_row) (i_sq i_tr : nat) (s : Qc) :
  aggregate_data df = Ok agg →
  resample_data agg f = Ok out →
  find_column "square_id" (columns df) = Ok i_sq →
  find_column "internet_traffic" (columns df) = Ok i_tr →
  (∀ r, r ∈ rows df → 0 ≤ cell r i_tr) →
  resampled_traffic out s
  = Qcsum ((fun r : list Qc => cell r i_tr)
             <$> filter (fun r : list Qc => cell r i_sq = s) (rows df)).
Proof.
  intros (i_sq' & i_t & Hsq & Ht & ->)%aggregate_data_inv Hout Hsq' Htr Hnn.
  rewrite Hsq in Hsq'. injection Hsq' as ->.
  destruct (value_position_of (columns df) i_sq i_t "internet_traffic" i_tr)
    as [p Hp]; [done..|].
  set (agg := mkTimeFrame _ _) in *.
  assert (Hsq0 : find_column "square_id" (tf_columns agg) = Ok 0%nat)
    by apply (aggregated_square_first _ _ i_t Hsq).
  assert (Htr1 : find_column "internet_traffic" (tf_columns agg) = Ok (S p))
    by by apply (aggregated_label_at (columns df) i_sq i_t "internet_traffic" i_tr p).
  apply resample_data_inv in Hout as (i0 & i1 & H0 & H1 & ->).
  rewrite Hsq0 in H0. rewrite Htr1 in H1. injection H0 as <-. injection H1 as <-.
  unfold resampled_traffic. rewrite list_filter_filter.
  rewrite <- (aggregated_square_total df i_sq i_t i_tr p Hp s).
  transitivity (aggregated_traffic agg s).
  - rewrite <- (resample_groups_square_total agg f 0 (S p) Hsq0 Htr1 s).
    rewrite <- (Qcsum_filter_pos internet_traffic
                  (filter (fun r => square_id r = s)
                     (resample_groups 0 (S p) f (tf_rows agg)))).
    + rewrite list_filter_filter. do 2 f_equal. apply list_filter_iff. tauto.
    + intros r [_ Hr]%list_elem_of_filter.
      apply (elem_of_resample_groups agg f 0 (S p) Hsq0 Htr1) in Hr as (_ & _ & ->).
      unfold bucket_total. apply Qcsum_nonneg.
      intros x (o & -> & [_ [_ Ho]%list_elem_of_filter]%list_elem_of_filter)%list_elem_of_fmap.
      unfold tf_cell. rewrite Htr1.
      by apply (aggregated_traffic_nonneg df i_sq i_t i_tr p Hp Hnn).
  - unfold aggregated_traffic. rewrite (rows_of_square_eq agg 0 Hsq0).
    unfold tf_cell. by rewrite Htr1.
Qed.



(** ** File names *)

Lemma rsplit_dot_txt (l : list ascii) :
  rsplit_dot (l ++ list_ascii_of_string ".txt")
  = Some (l, list_ascii_of_string ".txt").
Proof.
  induction l as [|c l IH]; [reflexivity|].
  change ((c :: l) ++ list_ascii_of_string ".txt")
    with (c :: (l ++ list_ascii_of_string ".txt")).
  cbn [rsplit_dot]. by rewrite IH.
Qed.

Lemma splitext_txt (stem : string) :
  splitext (stem ++ ".txt")
  = if only_dots stem then ((stem ++ ".txt")%string, ""%string) else (stem, ".txt"%string).
Proof.
  unfold splitext, only_dots. rewrite list_ascii_of_string_app, rsplit_dot_txt.
  destruct (forallb _ _); [done|].
  by rewrite !string_of_list_ascii_of_string.
Qed.

Lemma endswith_txt_app (stem : string) : endswith (stem ++ ".txt") ".txt" = true.
Proof.
  unfold endswith. apply bool_decide_eq_true. rewrite list_ascii_of_string_app.
  by apply suffix_app_r.
Qed.

Lemma endswith_txt_inv (name : string) :
  endswith name ".txt" = true → ∃ stem, name = (stem ++ ".txt")%string.
Proof.
  unfold endswith. intros [k Hk]%bool_decide_eq_true.
  exists (string_of_list_ascii k).
  rewrite <- (string_of_list_ascii_of_string name), Hk.
  rewrite <- (string_of_list_ascii_of_string (_ ++ ".txt")).
  by rewrite list_ascii_of_string_app, list_ascii_of_string_of_list_ascii.
Qed.

(** X11: a name that ends in [.txt] is split at that extension, so that the
    driver reads the listed file back under stem plus [.txt] and writes
    [cleaned-] stem [.csv]; only when nothing but dots comes before the
    extension is the name left whole. *)
Theorem txt_name_round_trip (name : string) :
  endswith name ".txt" = true →
  ∃ stem, name = (stem ++ ".txt")%string
    ∧ (only_dots stem = false →
       splitext name = (stem, ".txt"%string)
       ∧ ((splitext name).1 ++ ".txt")%string = name
       ∧ output_name name = (("cleaned-" ++ stem) ++ ".csv")%string)
    ∧ (only_dots stem = true → splitext name = (name, ""%string)).
Proof.
  intros [stem ->]%endswith_txt_inv. exists stem. split; [done|].
  unfold output_name. rewrite splitext_txt. split; intros ->; auto.
Qed.

Lemma txt_name_round_trip_witness :
  ∃ stem, "sms-call-internet-mi-2013-11-01.txt"%string = (stem ++ ".txt")%string
    ∧ (only_dots stem = false →
       splitext "sms-call-internet-mi-2013-11-01.txt" = (stem, ".txt"%string)
       ∧ ((splitext "sms-call-internet-mi-2013-11-01.txt").1 ++ ".txt")%string
         = "sms-call-internet-mi-2013-11-01.txt"%string
       ∧ output_name "sms-call-internet-mi-2013-11-01.txt"
         = (("cleaned-" ++ stem) ++ ".csv")%string)
    ∧ (only_dots stem = true →
       splitext "sms-call-internet-mi-2013-11-01.txt"
       = ("sms-call-internet-mi-2013-11-01.txt"%string, ""%string)).
Proof.
  apply (txt_name_round_trip "sms-call-internet-mi-2013-11-01.txt").
  vm_compute. reflexivity.
Defined.

(** X12: two files with different names, neither a row of dots before the
    extension, are written under different names. *)
Theorem output_names_distinct (a b : string) :
  only_dots a = false → only_dots b = false → a ≠ b →
  output_name (a ++ ".txt") ≠ output_name (b ++ ".txt").
Proof.
  intros Ha Hb Hne Heq%output_name_base.
  rewrite !splitext_txt, Ha, Hb in Heq. done.
Qed.

Lemma output_names_distinct_witness :
  only_dots "2013-11-01" = false
  ∧ output_name ("2013-11-01" ++ ".txt") ≠ output_name ("2013-11-02" ++ ".txt").
Proof.
  split; [reflexivity|].
  apply (output_names_distinct "2013-11-01" "2013-11-02"); [reflexivity|reflexivity|].
  intros H. discriminate H.
Defined.

(** ** [clean_data] and [process_files] *)

(** A table stored for a file stays: a later file with the same output name
    has the same base name, hence the same table. *)
Lemma for_each_file_keeps src d selected files :
  ∀ w w' res n out,
    for_each_file src d selected files w = (w', res) →
    pipeline src selected (splitext n).1 = Ok out →
    dest w !! output_name n = Some out →
    dest w' !! output_name n = Some out.
Proof.
  induction files as [|m files IH]; intros w w' res n out Hrun Hn Hw.
  - by injection Hrun as <- _.
  - rewrite for_each_file_cons in Hrun.
    destruct (pipeline src selected (splitext m).1) as [o|e] eqn:Hm.
    + apply (IH _ _ _ n out Hrun Hn). simpl.
      destruct (decide (output_name m = output_name n)) as [Heq|Hne].
      * rewrite Heq, lookup_insert_eq. f_equal.
        apply output_name_base in Heq. rewrite Heq, Hn in Hm. by injection Hm.
      * by rewrite lookup_insert_ne.
    + by injection Hrun as <- _.
Qed.

Lemma for_each_file_all src d selected files :
  (∀ n, n ∈ files → ∃ out, pipeline src selected (splitext n).1 = Ok out) →
  ∀ w, ∃ w',
    for_each_file src d selected files w = (w', None)
    ∧ (∀ n, n ∈ files →
         ∃ out, pipeline src selected (splitext n).1 = Ok out
                ∧ dest w' !! output_name n = Some out)
    ∧ (∀ k, k ∉ output_name <$> files → dest w' !! k = dest w !! k)
    ∧ length (stdout w') = (length (stdout w) + length files)%nat.
Proof.
  induction files as [|n files IH]; intros Hall w.
  - exists w. split; [done|]. split; [by intros n ?%elem_of_nil|].
    split; [done|]. simpl. lia.
  - destruct (Hall n) as [out Hn]; [left|].
    destruct (IH (fun m Hm => Hall m (list_elem_of_further _ _ _ Hm))
                 (mkWorld (<[output_name n := out]> (dest w))
                    (stdout w ++ [(d ++ "cleaned-" ++ (splitext n).1 ++ ".csv finished "
                                     ++ String "010" "")%string])))
      as (w' & Hrun & Hwritten & Hother & Hprinted).
    exists w'. rewrite for_each_file_cons, Hn. split; [done|]. split; [|split].
    + intros m [->|Hm]%elem_of_cons; [|by apply Hwritten].
      exists out. split; [done|].
      apply (for_each_file_keeps _ _ _ _ _ _ _ n out Hrun Hn).
      simpl. by rewrite lookup_insert_eq.
    + intros k Hk. rewrite fmap_cons in Hk. apply not_elem_of_cons in Hk as [Hne Hk].
      rewrite (Hother k Hk). simpl. by rewrite lookup_insert_ne.
    + rewrite Hprinted. simpl. rewrite length_app. simpl. lia.
Qed.

(** X13: when every [.txt] file of the source folder is processed without
    error, the run ends without exception; the table of every such file is
    in the destination folder under its output name, every other entry of
    the destination folder is as before, and one line is printed per file. *)
Theorem all_files_are_cleaned (src : folder) (destination_folder : string)
    (selected : list string) (w : world) :
  (∀ n, n ∈ txt_files src → ∃ out, pipeline src selected (splitext n).1 = Ok out) →
  ∃ w',
    process_files src destination_folder selected w = (w', None)
    ∧ (∀ n, n ∈ txt_files src →
         ∃ out, pipeline src selected (splitext n).1 = Ok out
                ∧ dest w' !! output_name n = Some out)
    ∧ (∀ k, k ∉ output_name <$> txt_files src → dest w' !! k = dest w !! k)
    ∧ length (stdout w') = (length (stdout w) + length (txt_files src))%nat.
Proof. intros Hall. unfold process_files. by apply for_each_file_all. Qed.

Lemma all_files_are_cleaned_witness :
  ∃ w',
    process_files [("b.txt"%string, sample_file); ("notes.md"%string, []);
                   ("c.txt"%string, sample_file)]
      cleaned_dataset_folder selected_columns (mkWorld ∅ []) = (w', None)
    ∧ dest w' !! "cleaned-b.csv"%string = Some sample_cleaned
    ∧ dest w' !! "cleaned-c.csv"%string = Some sample_cleaned
    ∧ dest w' !! "cleaned-notes.csv"%string = None
    ∧ length (stdout w') = 2%nat.
Proof.
  destruct (all_files_are_cleaned
              [("b.txt"%string, sample_file); ("notes.md"%string, []);
               ("c.txt"%string, sample_file)]
              cleaned_dataset_folder selected_columns (mkWorld ∅ []))
    as (w' & Hrun & Hwritten & Hother & Hprinted).
  { intros n Hn. vm_compute in Hn.
    repeat (apply elem_of_cons in Hn as [->|Hn];
            [exists sample_cleaned; vm_compute; reflexivity|]).
    by apply elem_of_nil in Hn. }
  exists w'. split; [exact Hrun|].
  destruct (Hwritten "b.txt"%string) as (ob & Hb & Hlb); [vm_compute; left|].
  destruct (Hwritten "c.txt"%string) as (oc & Hc & Hlc); [vm_compute; right; left|].
  vm_compute in Hb, Hc. injection Hb as <-. injection Hc as <-.
  split; [exact Hlb|]. split; [exact Hlc|]. split; [|exact Hprinted].
  rewrite Hother; [reflexivity|]. vm_compute.
  intros [H|[H|H]%elem_of_cons]%elem_of_cons; [discriminate H|discriminate H|].
  by apply elem_of_nil in H.
Defined.

Lemma for_each_file_again src d selected files :
  ∀ w w1 res,
    for_each_file src d selected files w = (w1, res) →
    ∀ w0, dest w0 = dest w1 →
      ∃ w2, for_each_file src d selected files w0 = (w2, res) ∧ dest w2 = dest w1.
Proof.
  induction files as [|n files IH]; intros w w1 res Hrun w0 Hw0.
  - injection Hrun as <- <-. by exists w0.
  - rewrite for_each_file_cons in Hrun. rewrite for_each_file_cons.
    destruct (pipeline src selected (splitext n).1) as [out|e] eqn:Hn.
    + apply (IH _ _ _ Hrun). simpl. rewrite Hw0. apply insert_id.
      apply (for_each_file_keeps _ _ _ _ _ _ _ n out Hrun Hn).
      simpl. by rewrite lookup_insert_eq.
    + injection Hrun as <- <-. by exists w0.
Qed.

(** X16: a second run over the same source folder ends like the first one
    and leaves the destination folder as the first run left it. *)
Theorem second_run_changes_nothing (src : folder) (destination_folder : string)
    (selected : list string) (w w1 : world) (res : option exn) :
  process_files src destination_folder selected w = (w1, res) →
  ∃ w2, process_files src destination_folder selected w1 = (w2, res)
        ∧ dest w2 = dest w1.
Proof.
  unfold process_files. intros Hrun. by apply (for_each_file_again _ _ _ _ _ _ _ Hrun).
Qed.

Lemma second_run_changes_nothing_witness :
  ∃ w2,
    process_files long_batch cleaned_dataset_folder selected_columns
      (mkWorld {[ "cleaned-b.csv"%string := sample_cleaned ]}
         ["./cleaned_dataset/cleaned-b.csv finished " ++ String "010" ""]%string)
    = (w2, Some ParserError)
    ∧ dest w2 = {[ "cleaned-b.csv"%string := sample_cleaned ]}.
Proof.
  apply (second_run_changes_nothing long_batch cleaned_dataset_folder selected_columns
           (mkWorld ∅ [])).
  vm_compute. reflexivity.
Defined.

Lemma open_same_txt (src src' : folder) (name : string) :
  same_txt_files src src' → endswith name ".txt" = true →
  open src name = open src' name.
Proof.
  intros Hsame Hname. unfold open.
  assert (Hlook : (list_to_map src : gmap string file) !! name
                  = (list_to_map src' : gmap string file) !! name).
  { induction Hsame as [|[a fa] [b fb] src src' [Hab Hf] _ IH]; [done|].
    simpl in *. subst b. destruct (decide (a = name)) as [->|Hne].
    - rewrite !lookup_insert_eq. f_equal. by apply Hf.
    - by rewrite !lookup_insert_ne. }
  by rewrite Hlook.
Qed.

Lemma listdir_same_txt (src src' : folder) :
  same_txt_files src src' → listdir src = listdir src'.
Proof.
  unfold listdir. induction 1 as [|a b src src' [Hab _] _ IH]; [done|].
  rewrite !fmap_cons. by f_equal.
Qed.

Lemma for_each_file_ext src src' d selected files :
  (∀ base, pipeline src selected base = pipeline src' selected base) →
  ∀ w, for_each_file src d selected files w = for_each_file src' d selected files w.
Proof.
  intros Hpipe. induction files as [|n files IH]; intros w; [done|].
  rewrite !for_each_file_cons, Hpipe.
  destruct (pipeline src' selected (splitext n).1); [apply IH|done].
Qed.

(** X14: entries whose name does not end in [.txt] play no part: two source
    folders with the same listing and the same content in every [.txt] entry
    give the same run. *)
Theorem other_files_are_ignored (src src' : folder) (destination_folder : string)
    (selected : list string) (w : world) :
  same_txt_files src src' →
  process_files src destination_folder selected w
  = process_files src' destination_folder selected w.
Proof.
  intros Hsame. unfold process_files. rewrite (listdir_same_txt _ _ Hsame).
  apply for_each_file_ext. intros base. unfold pipeline, read_and_preprocess.
  by rewrite (open_same_txt src src' _ Hsame (endswith_txt_app base)).
Qed.

Lemma other_files_are_ignored_witness :
  process_files [("a.txt"%string, sample_file); ("notes.md"%string, [])]
    cleaned_dataset_folder selected_columns (mkWorld ∅ [])
  = process_files [("a.txt"%string, sample_file); ("notes.md"%string, overlong_file)]
      cleaned_dataset_folder selected_columns (mkWorld ∅ []).
Proof.
  apply other_files_are_ignored.
  constructor; [split; [reflexivity|reflexivity]|].
  constructor; [split; [reflexivity|]|constructor].
  intros H. vm_compute in H. discriminate H.
Defined.

Lemma open_missing (src : folder) (name : string) :
  name ∉ listdir src → open src name = Raise FileNotFoundError.
Proof.
  intros Hname. unfold open.
  by rewrite (not_elem_of_list_to_map_1 (M := gmap string) src name Hname).
Qed.

(** X15: a [.txt] entry with nothing but dots before the extension, such as
    a file named [.txt] itself, keeps its whole name as base name; the loader
    then looks for that name with a second [.txt] appended, and when the
    folder has no such entry the run ends there with [FileNotFoundError]. *)
Theorem dotted_name_is_not_found (src : folder) (destination_folder : string)
    (selected : list string) (pre : list string) (stem : string) (post : list string)
    (w : world) :
  txt_files src = pre ++ (stem ++ ".txt")%string :: post →
  only_dots stem = true →
  ((stem ++ ".txt") ++ ".txt")%string ∉ listdir src →
  (∀ n, n ∈ pre → ∃ out, pipeline src selected (splitext n).1 = Ok out) →
  ∃ w', process_files src destination_folder selected w = (w', Some FileNotFoundError).
Proof.
  intros Hlist Hdots Hmissing Hpre.
  destruct (for_each_file_stops src destination_folder selected pre
              (stem ++ ".txt") post FileNotFoundError Hpre) with (w := w)
    as (w' & Hrun & _).
  - rewrite splitext_txt, Hdots. unfold pipeline, read_and_preprocess. simpl.
    by rewrite (open_missing _ _ Hmissing).
  - exists w'. unfold process_files. fold (txt_files src). by rewrite Hlist.
Qed.

Lemma dotted_name_is_not_found_witness :
  ∃ w', process_files [("b.txt"%string, sample_file); (".txt"%string, sample_file)]
          cleaned_dataset_folder selected_columns (mkWorld ∅ [])
        = (w', Some FileNotFoundError).
Proof.
  apply (dotted_name_is_not_found _ _ _ ["b.txt"%string] "" []).
  - vm_compute. reflexivity.
  - reflexivity.
  - apply (bool_decide_unpack _). vm_compute. exact I.
  - intros n ->%list_elem_of_singleton. exists sample_cleaned. vm_compute. reflexivity.
Defined.

(** ** From the file to the table written *)

Lemma filled_cell (l : line) (k : nat) :
  (k < 8)%nat → cell (default 0 <$> pad 8 l) k = default 0 (field_of l k).
Proof.
  intros Hk. unfold cell. apply list_lookup_total_correct.
  by rewrite list_lookup_fmap, pad_lookup.
Qed.

Lemma locate_selected_columns : locate names selected_columns = Ok [0; 1; 7]%nat.
Proof. reflexivity. Qed.

(** The table the loader makes of a file without overlong lines, for the
    three columns of the notebook. *)
Lemma loaded_selected_columns (src : folder) (file_path : string) (f : file) :
  open src file_path = Ok f →
  (∀ l, l ∈ f → (length l ≤ 8)%nat) →
  read_and_preprocess src file_path selected_columns
  = Ok (mkDataFrame selected_columns
          ((fun l : line => [line_square l; default 0 (field_of l 1); line_traffic l])
             <$> filter (fun l : line => l ≠ []) f)).
Proof.
  intros Hopen Hshort. unfold read_and_preprocess. rewrite Hopen. simpl.
  rewrite (read_csv_short f Hshort). simpl. unfold getitem. simpl columns.
  rewrite locate_selected_columns. simpl. do 2 f_equal.
  rewrite <- !list_fmap_compose. apply list_fmap_ext. intros _ l _. simpl.
  unfold line_square, line_traffic. by rewrite !filled_cell by lia.
Qed.



(** ** The order of the resampled rows *)

Lemma StronglySorted_lookup {A} (R : relation A) (l : list A) :
  (∀ i j x y, (i < j)%nat → l !! i = Some x → l !! j = Some y → R x y) →
  StronglySorted R l.
Proof.
  induction l as [|a l IH]; intros Hl; [constructor|].
  constructor.
  - apply IH. intros i j x y Hij Hi Hj. by apply (Hl (S i) (S j)); [lia|..].
  - apply Forall_forall. intros y [j Hj]%list_elem_of_lookup_1.
    by apply (Hl 0%nat (S j)); [lia|..].
Qed.

Lemma StronglySorted_filter {A} (R : relation A) (P : A → Prop) `{!∀ x, Decision (P x)}
    (l : list A) :
  StronglySorted R l → StronglySorted R (filter P l).
Proof.
  induction 1 as [|a l Hl IH Ha]; [constructor|].
  rewrite filter_cons. destruct (decide (P a)); [|done].
  constructor; [done|]. rewrite Forall_forall in *.
  intros y [_ Hy]%list_elem_of_filter. by apply Ha.
Qed.

Lemma StronglySorted_bind {A B} (R : relation A) (R' : relation B) (g : A → list B)
    (l : list A) :
  StronglySorted R l →
  (∀ x, x ∈ l → StronglySorted R' (g x)) →
  (∀ x y a b, R x y → a ∈ g x → b ∈ g y → R' a b) →
  StronglySorted R' (l ≫= g).
Proof.
  intros Hl Hg Hcross. induction Hl as [|x l Hl IH Hx]; [constructor|].
  rewrite bind_cons. apply StronglySorted_app_2.
  - intros a b Ha (y & Hb & Hy)%list_elem_of_bind.
    rewrite Forall_forall in Hx. by apply (Hcross x y); [apply Hx|..].
  - apply Hg. left.
  - apply IH. intros y Hy. apply Hg. by right.
Qed.

Lemma StronglySorted_strict (l : list Qc) :
  StronglySorted Qcle l → NoDup l → StronglySorted Qclt l.
Proof.
  induction 1 as [|a l Hl IH Ha]; intros Hnd; [constructor|].
  apply NoDup_cons in Hnd as [Hnotin Hnd]. constructor; [by apply IH|].
  rewrite Forall_forall in *. intros y Hy.
  destruct (Qcle_lt_or_eq _ _ (Ha y Hy)) as [?| ->]; [done|]. by destruct Hnotin.
Qed.

Lemma squares_of_sorted i_sq rs : StronglySorted Qclt (squares_of i_sq rs).
Proof.
  apply StronglySorted_strict; [|apply NoDup_squares_of].
  unfold squares_of. apply StronglySorted_merge_sort; [|apply _].
  intros x y z. apply Qcle_trans.
Qed.

Lemma bin_labels_sorted f ts : (0 < f)%Z → StronglySorted Z.lt (bin_labels f ts).
Proof.
  intros Hf. destruct ts as [|t ts]; [constructor|]. simpl. unfold bin_range.
  apply StronglySorted_lookup. intros i j x y Hij.
  intros (a & -> & [-> _]%lookup_seqZ)%list_lookup_fmap_Some
         (b & -> & [-> _]%lookup_seqZ)%list_lookup_fmap_Some.
  nia.
Qed.

(** X18: the resampled table is in strictly ascending order of [square_id]
    and, within a square, of bucket. *)
Theorem resampled_rows_sorted (df : TimeFrame) (f : frequency) (out : list bucket_row) :
  resample_data df f = Ok out → StronglySorted bucket_lt out.
Proof.
  intros (i_sq & i_tr & Hsq & Htr & ->)%resample_data_inv.
  apply StronglySorted_filter. unfold resample_groups.
  apply (StronglySorted_bind Qclt); [apply squares_of_sorted| |].
  - intros s _. unfold resample_sum. rewrite <- list_fmap_compose.
    apply (StronglySorted_fmap _ Z.lt); [|by apply bin_labels_sorted].
    intros b1 b2 Hb. right. by split.
  - intros s1 s2 a b Hs (p1 & -> & _)%list_elem_of_fmap (p2 & -> & _)%list_elem_of_fmap.
    by left.
Qed.

Lemma resampled_rows_sorted_witness :
  StronglySorted bucket_lt
    [mkBucket (num 1) (stamp 11 0) (num 5); mkBucket (num 7) (stamp 10 0) (num 10);
     mkBucket (num 7) (stamp 12 0) (num 2)].
Proof.
  apply (resampled_rows_sorted
           (traffic_frame [(stamp 12 10, (7, 2)); (stamp 11 5, (1, 5));
                           (stamp 10 40, (7, 6)); (stamp 10 5, (7, 4))]%Z) hourly).
  vm_compute. reflexivity.
Defined.

(** ** The order of the input rows *)

Lemma Qcsum_Permutation l l' : l ≡ₚ l' → Qcsum l = Qcsum l'.
Proof.
  induction 1 as [|x l l' _ IH|x y l|l l' l'' _ IH1 _ IH2].
  - done.
  - by rewrite !Qcsum_cons, IH.
  - rewrite !Qcsum_cons. ring.
  - by rewrite IH1.
Qed.

#[local] Instance key_le_antisymm : AntiSymm eq key_le.
Proof.
  intros [a1 a2] [b1 b2]. unfold key_le. simpl.
  intros [Hab|[-> Hab]] [Hba|[Heq Hba]].
  - destruct (Qclt_not_le _ _ Hab). by apply Qclt_le_weak.
  - subst. by destruct (Qclt_not_eq _ _ Hab).
  - by destruct (Qclt_not_eq _ _ Hba).
  - f_equal. by apply Qcle_antisym.
Qed.

Lemma group_keys_Permutation i1 i2 rs rs' :
  rs ≡ₚ rs' → group_keys i1 i2 rs = group_keys i1 i2 rs'.
Proof.
  intros Hperm. unfold group_keys.
  apply (StronglySorted_unique key_le);
    [apply StronglySorted_merge_sort; apply _..|].
  rewrite !merge_sort_Permutation.
  apply NoDup_Permutation; [apply NoDup_remove_dups..|].
  intros k. rewrite !elem_of_remove_dups. by rewrite Hperm.
Qed.



(** ** What a run leaves untouched *)

Lemma for_each_file_writes src d selected files :
  ∀ w w' res,
    for_each_file src d selected files w = (w', res) →
    (∀ k v, dest w !! k = Some v → is_Some (dest w' !! k))
    ∧ (∀ k, dest w' !! k ≠ dest w !! k → k ∈ output_name <$> files)
    ∧ stdout w `prefix_of` stdout w'.
Proof.
  induction files as [|n files IH]; intros w w' res Hrun.
  - injection Hrun as <- _. split; [by eauto|]. split; [done|]. done.
  - rewrite for_each_file_cons in Hrun.
    destruct (pipeline src selected (splitext n).1) as [out|e].
    + destruct (IH _ _ _ Hrun) as (Hkeep & Hchanged & Hprinted). simpl in *.
      split; [|split].
      * intros k v Hk. destruct (decide (output_name n = k)) as [<-|Hne].
        -- apply (Hkeep _ out). by rewrite lookup_insert_eq.
        -- apply (Hkeep _ v). by rewrite lookup_insert_ne.
      * intros k Hk. apply (elem_of_cons (output_name <$> files) k (output_name n)).
        destruct (decide (output_name n = k)) as [<-|Hne]; [by left|right].
        apply Hchanged. by rewrite lookup_insert_ne.
      * etrans; [|apply Hprinted]. by apply prefix_app_r.
    + injection Hrun as <- _. split; [by eauto|]. split; [done|]. done.
Qed.

(** X20: whatever its outcome, a run removes no entry of the destination
    folder, changes entries only under the output names of the listed
    [.txt] files, and only adds to what was printed. *)
Theorem run_only_writes_outputs (src : folder) (destination_folder : string)
    (selected : list string) (w w' : world) (res : option exn) :
  process_files src destination_folder selected w = (w', res) →
  (∀ k v, dest w !! k = Some v → is_Some (dest w' !! k))
  ∧ (∀ k, dest w' !! k ≠ dest w !! k → k ∈ output_name <$> txt_files src)
  ∧ stdout w `prefix_of` stdout w'.
Proof. unfold process_files. apply for_each_file_writes. Qed.

Lemma run_only_writes_outputs_witness :
  ∃ w',
    process_files long_batch cleaned_dataset_folder selected_columns
      (mkWorld {[ "report.csv"%string := [] ]} []) = (w', Some ParserError)
    ∧ is_Some (dest w' !! "report.csv"%string)
    ∧ "cleaned-b.csv"%string ∈ output_name <$> txt_files long_batch.
Proof.
  eexists. split; [vm_compute; reflexivity|].
  destruct (run_only_writes_outputs long_batch cleaned_dataset_folder selected_columns
              (mkWorld {[ "report.csv"%string := [] ]} []) _ (Some ParserError)
              ltac:(vm_compute; reflexivity))
    as (Hkeep & Hchanged & _).
  split.
  - apply (Hkeep "report.csv"%string []). vm_compute. reflexivity.
  - apply Hchanged. vm_compute. intros H. discriminate H.
Defined.
